(** * maas_extra/nodes.py: the node REST handlers, embedded and verified

    The handlers of [maas_extra/nodes.py] are translated function by
    function.  The database is a list of node rows, exceptions are values of
    [exn], and a handler is a function from the database to the database
    after the call paired with what the call returned or raised.  What the
    file imports from [maasserver] (the status constants, the permission
    check, the model methods) is not part of the repository: constants and
    oracles are fields of the classes [NODE_STATUS.t], [Collaborators] and
    [Reporting].  The installer script of [maas_deploy/fabfile.py] is
    embedded as a function from the lines typed to the commands run. *)

From Stdlib Require Import ZArith Lia Ascii String DecimalString.
From stdpp Require Import base option list sets gmap strings pretty sorting.

Local Open Scope string_scope.
Local Open Scope Z_scope.
Local Open Scope list_scope.

(** ** Data model *)

(** [maasserver.enum.NODE_STATUS]: the integer constants stored in
    [Node.status].  Their numeric values are not in the repository. *)
Module NODE_STATUS.
Class t : Type := {
  NEW : Z;
  COMMISSIONING : Z;
  FAILED_COMMISSIONING : Z;
  READY : Z;
  RESERVED : Z;
  ALLOCATED : Z;
  DEPLOYING : Z;
  DEPLOYED : Z;
  RELEASING : Z;
  DISK_ERASING : Z;
  FAILED_DEPLOYMENT : Z;
  FAILED_RELEASING : Z;
  FAILED_DISK_ERASING : Z;
  BROKEN : Z;
  RETIRED : Z
}.
End NODE_STATUS.

(** [maasserver.enum.NODE_PERMISSION]. *)
Module NODE_PERMISSION.
Inductive t : Type := VIEW | EDIT | ADMIN.
End NODE_PERMISSION.

Record User : Type := {
  username : string;
  is_superuser : bool
}.

(** A network a node is attached to (name, VLAN tag, IPv4 subnet). *)
Record Network : Type := {
  net_name : string;
  net_vlan : Z;
  net_ip : Z;
  net_mask : Z
}.

(** A row of [maasserver.models.Node], with the attributes the handlers and
    the acquisition constraints read. *)
Module Node.
Record t : Type := {
system_id : string;
hostname : string;
architecture : string;
cpu_count : Z;
memory : Z;
status : Z;
owner : option User;
token : option string;
agent_name : string;
zone : string;
tags : list string;
routers : list string;
networks : list Network;
nodegroup : string;
power_type : string;
power_parameters : string
}.

Definition set_status (s : Z) (n : t) : t :=
{| system_id := system_id n; hostname := hostname n;
   architecture := architecture n; cpu_count := cpu_count n;
   memory := memory n; status := s; owner := owner n; token := token n;
   agent_name := agent_name n; zone := zone n; tags := tags n;
   routers := routers n; networks := networks n;
   nodegroup := nodegroup n; power_type := power_type n;
   power_parameters := power_parameters n |}.

Definition set_owner (o : option User) (tok : option string) (n : t) : t :=
{| system_id := system_id n; hostname := hostname n;
   architecture := architecture n; cpu_count := cpu_count n;
   memory := memory n; status := status n; owner := o; token := tok;
   agent_name := agent_name n; zone := zone n; tags := tags n;
   routers := routers n; networks := networks n;
   nodegroup := nodegroup n; power_type := power_type n;
   power_parameters := power_parameters n |}.

Definition set_agent_name (a : string) (n : t) : t :=
{| system_id := system_id n; hostname := hostname n;
   architecture := architecture n; cpu_count := cpu_count n;
   memory := memory n; status := status n; owner := owner n;
   token := token n; agent_name := a; zone := zone n; tags := tags n;
   routers := routers n; networks := networks n;
   nodegroup := nodegroup n; power_type := power_type n;
   power_parameters := power_parameters n |}.

Definition set_power_type (p : string) (n : t) : t :=
{| system_id := system_id n; hostname := hostname n;
   architecture := architecture n; cpu_count := cpu_count n;
   memory := memory n; status := status n; owner := owner n;
   token := token n; agent_name := agent_name n; zone := zone n;
   tags := tags n; routers := routers n; networks := networks n;
   nodegroup := nodegroup n; power_type := p;
   power_parameters := power_parameters n |}.

Definition set_power_parameters (p : string) (n : t) : t :=
{| system_id := system_id n; hostname := hostname n;
   architecture := architecture n; cpu_count := cpu_count n;
   memory := memory n; status := status n; owner := owner n;
   token := token n; agent_name := agent_name n; zone := zone n;
   tags := tags n; routers := routers n; networks := networks n;
   nodegroup := nodegroup n; power_type := power_type n;
   power_parameters := p |}.
End Node.

(** The node table, in the order in which the storage yields its rows. *)
Abbreviation DB := (list Node.t).

(** ** Exceptions and the handler monad *)

Inductive exn : Type :=
  | Http404
  | PermissionDenied (msg : string)
  | MAASAPIBadRequest (msg : string)
  | NodeStateViolation (msg : string)
  | NodesNotAvailable (msg : string)
  | ValidationError (msg : string)
  | Unauthorized (msg : string).

Inductive outcome (A : Type) : Type :=
  | Return (a : A)
  | Raise (e : exn).
Arguments Return {A} a.
Arguments Raise {A} e.

(** A handler threads the database; the database reached when an exception
    is raised is kept (nothing in the file rolls a write back). *)
Definition M (A : Type) : Type := DB → DB * outcome A.

Definition ret {A} (a : A) : M A := λ db, (db, Return a).
Definition raise {A} (e : exn) : M A := λ db, (db, Raise e).
Definition bind {A B} (c : M A) (k : A → M B) : M B :=
  λ db, match c db with
        | (db', Return a) => k a db'
        | (db', Raise e) => (db', Raise e)
        end.
Definition query {A} (q : DB → A) : M A := λ db, (db, Return (q db)).
Definition update (f : DB → DB) : M unit := λ db, (f db, Return tt).

Notation "x <~ c ;; k" := (bind c (λ x, k))
  (at level 100, c at next level, right associativity).
Notation "c ;;; k" := (bind c (λ _, k))
  (at level 100, right associativity).

(** [', '.join(xs)] *)
Fixpoint join (sep : string) (xs : list string) : string :=
  match xs with
  | [] => ""
  | [x] => x
  | x :: rest => x +:+ sep +:+ join sep rest
  end.

(** ** Requests *)

(** Django's [QueryDict]: every key holds the list of values sent for it. *)
Module QueryDict.
Abbreviation t := (gmap string (list string)).

(** [d.get(key, None)]: the last value of the key, [None] when the key is
    missing or holds no value. *)
Definition get (key : string) (d : t) : option string :=
  match d !! key with
  | Some values => last values
  | None => None
  end.

(** [d.getlist(key)] *)
Definition getlist (key : string) (d : t) : list string :=
  default [] (d !! key).

(** [d[key] = value] *)
Definition setitem (key value : string) (d : t) : t :=
  <[key := [value]]> d.

(** [del d[key]] *)
Definition delitem (key : string) (d : t) : t := delete key d.

(** [key in d] *)
Definition contains (key : string) (d : t) : bool :=
  bool_decide (is_Some (d !! key)).
End QueryDict.

Record Request : Type := {
  user : User;
  oauth_token : string;
  data : QueryDict.t;
  POST : QueryDict.t
}.

(** Truth value of an optional Python string: [None] and [''] are false. *)
Definition truthy (v : option string) : bool :=
  match v with
  | Some s => negb (String.eqb s "")
  | None => false
  end.

(** [c in s] for a one-character [c]. *)
Fixpoint occurs (c : ascii) (s : string) : bool :=
  match s with
  | EmptyString => false
  | String c' rest => if Ascii.eqb c c' then true else occurs c rest
  end.

(** ** Acquisition constraints *)

(** Modelled from the spec: section 3, a network membership is asked for by
    name, by an IP address within the subnet, or by VLAN tag. *)
Inductive NetworkSpec : Type :=
  | ByName (name : string)
  | ByIP (ip : Z)
  | ByVlan (tag : Z).

(** Modelled from the spec: the cleaned data of [AcquireNodeForm] is the
    constraint set of section 3 (the agent name is read by the handler
    itself). *)
Record ConstraintSet : Type := {
  c_name : option string;
  c_arch : option string;
  c_cpu_count : option Z;
  c_mem : option Z;
  c_tags : list string;
  c_not_tags : list string;
  c_networks : list NetworkSpec;
  c_not_networks : list NetworkSpec;
  c_connected_to : list string;
  c_not_connected_to : list string;
  c_zone : option string;
  c_not_in_zone : list string
}.

(** The request that gives no constraint. *)
Definition no_constraints : ConstraintSet :=
  {| c_name := None; c_arch := None; c_cpu_count := None; c_mem := None;
     c_tags := []; c_not_tags := []; c_networks := []; c_not_networks := [];
     c_connected_to := []; c_not_connected_to := [];
     c_zone := None; c_not_in_zone := [] |}.

(** ** What the handlers use from [maasserver] *)

Class Collaborators `{NODE_STATUS.t} : Type := {
  (** [maasserver.models.node.RELEASABLE_STATUSES] *)
  RELEASABLE_STATUSES : list Z;
  (** the statuses for which [Node.accept_enlistment] reports the node as
      already accepted *)
  ACCEPTED_STATUSES : list Z;
  (** [user.has_perm(perm, node)] *)
  has_perm : User → NODE_PERMISSION.t → Node.t → bool;
  (** [Node.release_or_erase]: the node object after the call; the
      identifier of a node never changes *)
  release_or_erase : Node.t → Node.t;
  release_or_erase_system_id node :
    Node.system_id (release_or_erase node) = Node.system_id node;
  (** [Node.display_status] *)
  display_status : Node.t → string;
  (** the field cleaning of [AcquireNodeForm(data=...)]: the typed
      constraint set read from the request, [None] when a field does not
      parse *)
  clean_constraints : QueryDict.t → option ConstraintSet;
  (** [form.errors], rendered *)
  form_errors : QueryDict.t → string;
  (** [get_node_create_form(user)(data=...)]: the node that [form.save()]
      creates, [None] when [form.is_valid()] is false *)
  node_create_form : User → QueryDict.t → DB → option Node.t;
  (** [maasserver.utils.find_nodegroup] *)
  find_nodegroup : Request → option string;
  (** [get_power_types([nodegroup])] *)
  get_power_types : string → list string;
  (** [provisioningserver.power_schema.UNKNOWN_POWER_TYPE] *)
  UNKNOWN_POWER_TYPE : string;
  (** [json.loads], [None] for [ValueError] *)
  json_loads : string → option string
}.

Section queries.
Context `{Collaborators}.

(** [node.save()]: the row of [node] becomes [node']. *)
Definition save (node node' : Node.t) : M unit :=
  update (fmap (λ row,
    if bool_decide (Node.system_id row = Node.system_id node)
    then node' else row)).

(** Modelled from the spec: [Node.objects.get_node_or_404(system_id, user,
    perm)] is not in the repository.  Section 6 (registry storage, permission
    oracle) and the docstrings of the handlers: 404 when no row has the
    identifier, 403 when the user lacks the permission. *)
Definition get_node_or_404 (system_id : string) (user : User)
    (perm : NODE_PERMISSION.t) : M Node.t :=
  rows <~ query (filter (λ row, Node.system_id row = system_id)) ;;
  match rows with
  | [] => raise Http404
  | node :: _ =>
      if has_perm user perm node then ret node
      else raise (PermissionDenied "")
  end.

(** [Node.objects.filter(system_id__in=system_ids)] *)
Definition filter_system_id_in (system_ids : gset string) : M (list Node.t) :=
  query (filter (λ row, Node.system_id row ∈ system_ids)).

(** Modelled from the spec: [Node.objects.get_nodes(user, perm,
    ids=system_ids)] is not in the repository.  Sections 4.4 and 6: the rows
    among the identifiers on which the permission oracle grants [perm] to
    the user. *)
Definition get_nodes (user : User) (perm : NODE_PERMISSION.t)
    (system_ids : gset string) : M (list Node.t) :=
  query (filter (λ row,
    has_perm user perm row ∧ Node.system_id row ∈ system_ids)).
End queries.

(** ** Node creation *)

(** [s.isspace()], on ASCII white space. *)
Definition is_space_char (c : ascii) : bool :=
  let n := nat_of_ascii c in
  ((9 <=? n) && (n <=? 13) || (28 <=? n) && (n <=? 32))%nat.

Fixpoint all_space (s : string) : bool :=
  match s with
  | EmptyString => true
  | String c rest => is_space_char c && all_space rest
  end.

Definition isspace (s : string) : bool :=
  negb (String.eqb s "") && all_space s.

Section creation.
Context `{Collaborators}.

(** [store_node_power_parameters]; the node object is updated in place,
    so the updated node is returned. *)
Definition store_node_power_parameters (node : Node.t) (request : Request)
    : M Node.t :=
  match QueryDict.get "power_type" (POST request) with
  | None => ret node
  | Some power_type =>
      let power_types := get_power_types (Node.nodegroup node) in
      if bool_decide (power_type ∈ power_types)
         || String.eqb power_type UNKNOWN_POWER_TYPE then
        let node1 := Node.set_power_type power_type node in
        let power_parameters :=
          QueryDict.get "power_parameters" (POST request) in
        if truthy power_parameters
           && negb (isspace (default "" power_parameters)) then
          match json_loads (default "" power_parameters) with
          | Some parsed =>
              let node2 := Node.set_power_parameters parsed node1 in
              save node node2 ;;; ret node2
          | None =>
              raise (MAASAPIBadRequest
                "Failed to parse JSON power_parameters")
          end
        else
          save node node1 ;;; ret node1
      else
        raise (MAASAPIBadRequest ("Bad power_type '" +:+ power_type +:+ "'"))
  end.

(** The first part of [create_node]: [altered_query_data] with the
    architecture rewritten. *)
Definition create_node_architecture (request : Request) : M QueryDict.t :=
  let given_arch := QueryDict.get "architecture" (data request) in
  let given_subarch := QueryDict.get "subarchitecture" (data request) in
  let altered_query_data := data request in
  if truthy given_arch && occurs "/" (default "" given_arch) then
    if truthy given_subarch then
      (* Architecture with a '/' and a subarchitecture: error. *)
      raise (ValidationError "Subarchitecture cannot be specified twice.")
    else
      (* Architecture with a '/' in it: use normally. *)
      ret altered_query_data
  else if truthy given_arch then
    if truthy given_subarch then
      (* Architecture without a '/' and a subarchitecture:
         use as specified. *)
      ret (QueryDict.delitem "subarchitecture"
             (QueryDict.setitem "architecture"
                (join "/" [default "" given_arch; default "" given_subarch])
                altered_query_data))
    else
      (* Architecture without a '/' and no subarchitecture:
         assume 'generic'. *)
      ret (QueryDict.setitem "architecture"
             (default "" given_arch +:+ "/generic") altered_query_data)
  else ret altered_query_data.

(** The node group of [create_node]. *)
Definition create_node_nodegroup (request : Request)
    (altered_query_data : QueryDict.t) : M QueryDict.t :=
  if negb (QueryDict.contains "nodegroup" altered_query_data) then
    match QueryDict.get "autodetect_nodegroup" (data request) with
    | None =>
        raise (ValidationError
          ("'autodetect_nodegroup' must be specified if 'nodegroup' "
           +:+ "parameter missing"))
    | Some _ =>
        match find_nodegroup request with
        | Some nodegroup =>
            ret (QueryDict.setitem "nodegroup" nodegroup altered_query_data)
        | None => ret altered_query_data
        end
    end
  else ret altered_query_data.

(** The second part of [create_node]: the node is created from
    [altered_query_data]. *)
Definition create_node_store (request : Request)
    (altered_query_data : QueryDict.t) : M Node.t :=
  altered_query_data <~ create_node_nodegroup request altered_query_data ;;
  form <~ query (node_create_form (user request) altered_query_data) ;;
  match form with
  | Some node =>
      update (λ db, db ++ [node]) ;;;
      (* Hack in the power parameters here. *)
      store_node_power_parameters node request
  | None => raise (ValidationError (form_errors altered_query_data))
  end.

(** [create_node] *)
Definition create_node (request : Request) : M Node.t :=
  altered_query_data <~ create_node_architecture request ;;
  create_node_store request altered_query_data.
End creation.

(** ** NodeHandler *)

Module NodeHandler.
Section handler.
Context `{Collaborators}.

Definition old_allocated_status_aliases : list Z :=
  [NODE_STATUS.ALLOCATED; NODE_STATUS.DEPLOYING;
   NODE_STATUS.DEPLOYED; NODE_STATUS.FAILED_DEPLOYMENT].

Definition old_deployed_status_aliases : list Z :=
  [NODE_STATUS.RELEASING; NODE_STATUS.DISK_ERASING;
   NODE_STATUS.FAILED_RELEASING; NODE_STATUS.FAILED_DISK_ERASING].

(** [NodeHandler.status]: the backward-compatibility view. *)
Definition status (node : Node.t) : Z :=
  let deployed_aliases :=
    old_allocated_status_aliases ++ old_deployed_status_aliases in
  if bool_decide (Node.status node ∈ deployed_aliases)
  then 6 (* Old allocated status. *)
  else Node.status node.

(** [NodeHandler.substatus] *)
Definition substatus (node : Node.t) : Z := Node.status node.

(** [NodeHandler.release] *)
Definition release (request : Request) (system_id : string) : M Node.t :=
  node <~ get_node_or_404 system_id (user request) NODE_PERMISSION.EDIT ;;
  if bool_decide (Node.status node = NODE_STATUS.READY) then
    (* Nothing to do. *)
    ret node
  else if bool_decide (Node.status node ∈ RELEASABLE_STATUSES) then
    (* node.release_or_erase() changes the object and its row *)
    save node (release_or_erase node) ;;;
    ret (release_or_erase node)
  else
    raise (NodeStateViolation
      ("Node cannot be released in its current state ('"
       +:+ display_status node +:+ "')."))%string.
End handler.
End NodeHandler.

(** ** Model methods used by the bulk handlers *)

Section model_methods.
Context `{Collaborators}.

(** Modelled from the spec: [Node.accept_enlistment] is not in the
    repository.  Section 4.1: accept_enlistment is legal only from NEW, sets
    the status to COMMISSIONING, and re-accepting an already accepted node
    is a no-op returning no change (null).  The docstring of
    [NodesHandler.accept] adds that accepting a node that is allocated,
    broken, etc. is an error. *)
Definition accept_enlistment (node : Node.t) (user : User)
    : M (option Node.t) :=
  if bool_decide (Node.status node ∈ ACCEPTED_STATUSES) then
    ret None
  else if bool_decide (Node.status node ≠ NODE_STATUS.NEW) then
    raise (NodeStateViolation
      ("Cannot accept node enlistment: node " +:+ Node.system_id node
       +:+ " is in state " +:+ display_status node +:+ "."))%string
  else
    let node' := Node.set_status NODE_STATUS.COMMISSIONING node in
    save node node' ;;;
    ret (Some node').

(** Modelled from the spec: [Node.objects.get_available_nodes_for_acquisition]
    is not in the repository.  Section 4.3: the base candidate pool is all
    resources with status READY, visible to the requester, not already
    owned. *)
Definition get_available_nodes_for_acquisition (for_user : User)
    : M (list Node.t) :=
  query (filter (λ row,
    Node.status row = NODE_STATUS.READY
    ∧ has_perm for_user NODE_PERMISSION.VIEW row
    ∧ Node.owner row = None)).

(** Modelled from the spec: [Node.acquire] is not in the repository.
    Section 4.3: on success the owner is set to the requester, the status
    to ALLOCATED, the agent name is stamped, and the resource is
    returned. *)
Definition acquire_node (node : Node.t) (user : User) (token : string)
    (agent_name : string) : M Node.t :=
  let node' :=
    Node.set_agent_name agent_name
      (Node.set_owner (Some user) (Some token)
         (Node.set_status NODE_STATUS.ALLOCATED node)) in
  save node node' ;;;
  ret node'.
End model_methods.

(** ** AcquireNodeForm *)

Module AcquireNodeForm.
(** Modelled from the spec: [AcquireNodeForm] is not in the repository.
    Section 4.2: a VLAN tag must lie within 1-4095 inclusive, otherwise the
    whole request is invalid. *)
Definition network_spec_valid (spec : NetworkSpec) : bool :=
  match spec with
  | ByVlan tag => bool_decide (1 ≤ tag ≤ 4095)
  | _ => true
  end.

(** Modelled from the spec: [form.is_valid()].  The form is valid when its
    fields were read and every VLAN tag is in range (section 4.2). *)
Definition is_valid (cleaned : option ConstraintSet) : bool :=
  match cleaned with
  | None => false
  | Some cs =>
      forallb network_spec_valid (c_networks cs)
      && forallb network_spec_valid (c_not_networks cs)
  end.

(** Modelled from the spec: membership of a node's network by name, by an
    IP address that falls within the subnet, or by VLAN tag (sections 3 and
    4.2). *)
Definition network_matches (spec : NetworkSpec) (net : Network) : bool :=
  match spec with
  | ByName name => String.eqb (net_name net) name
  | ByIP ip => Z.land ip (net_mask net) =? Z.land (net_ip net) (net_mask net)
  | ByVlan tag => net_vlan net =? tag
  end.

(** The node is attached to a network that the specifier names. *)
Definition on_network (node : Node.t) (spec : NetworkSpec) : bool :=
  existsb (network_matches spec) (Node.networks node).

(** An absent field imposes no restriction. *)
Definition if_given {A} (v : option A) (test : A → bool) : bool :=
  match v with
  | Some x => test x
  | None => true
  end.

(** Modelled from the spec: section 4.2.  Each constraint that is present
    narrows the candidates and the constraints combine by AND; numeric
    minimums compare with [>=]; tag, network and router constraints are
    membership tests and their not_ variants exclusion tests; absent fields
    impose no restriction. *)
Definition matches (cs : ConstraintSet) (node : Node.t) : bool :=
  if_given (c_name cs) (String.eqb (Node.hostname node))
  && if_given (c_arch cs) (String.eqb (Node.architecture node))
  && if_given (c_cpu_count cs) (λ n, n <=? Node.cpu_count node)
  && if_given (c_mem cs) (λ n, n <=? Node.memory node)
  && forallb (λ tag, bool_decide (tag ∈ Node.tags node)) (c_tags cs)
  && forallb (λ tag, bool_decide (tag ∉ Node.tags node)) (c_not_tags cs)
  && forallb (on_network node) (c_networks cs)
  && forallb (λ spec, negb (on_network node spec)) (c_not_networks cs)
  && forallb (λ mac, bool_decide (mac ∈ Node.routers node))
       (c_connected_to cs)
  && forallb (λ mac, bool_decide (mac ∉ Node.routers node))
       (c_not_connected_to cs)
  && if_given (c_zone cs) (String.eqb (Node.zone node))
  && bool_decide (Node.zone node ∉ c_not_in_zone cs).

(** Modelled from the spec: the matcher is a pure, order-preserving filter
    of the candidate sequence (section 4.2).  An invalid form is never
    filtered with. *)
Definition filter_nodes (cleaned : option ConstraintSet)
    (nodes : list Node.t) : list Node.t :=
  match cleaned with
  | Some cs => filter (λ node, matches cs node) nodes
  | None => nodes
  end.

(** The text of a network specifier. *)
Definition describe_network (spec : NetworkSpec) : string :=
  match spec with
  | ByName name => name
  | ByIP ip => "ip:" +:+ pretty ip
  | ByVlan tag => "vlan:" +:+ pretty tag
  end.

(** The clause of one field: nothing when the field was not given. *)
Definition describe_constraint (field : string) (values : list string)
    : list string :=
  match values with
  | [] => []
  | _ => [field +:+ "=" +:+ join "," values]
  end.

(** Modelled from the spec: section 4.3.  The human-readable rendering of
    the applied constraints: one [field=value] clause for each constraint
    that was given, the empty string when none was. *)
Definition describe_constraints (cleaned : option ConstraintSet) : string :=
  match cleaned with
  | None => ""
  | Some cs =>
      join " "
        (describe_constraint "arch" (option_list (c_arch cs))
         ++ describe_constraint "connected_to" (c_connected_to cs)
         ++ describe_constraint "cpu_count"
              (option_list (pretty <$> c_cpu_count cs))
         ++ describe_constraint "mem" (option_list (pretty <$> c_mem cs))
         ++ describe_constraint "name" (option_list (c_name cs))
         ++ describe_constraint "networks"
              (describe_network <$> c_networks cs)
         ++ describe_constraint "not_connected_to" (c_not_connected_to cs)
         ++ describe_constraint "not_in_zone" (c_not_in_zone cs)
         ++ describe_constraint "not_networks"
              (describe_network <$> c_not_networks cs)
         ++ describe_constraint "not_tags" (c_not_tags cs)
         ++ describe_constraint "tags" (c_tags cs)
         ++ describe_constraint "zone" (option_list (c_zone cs)))
  end.
End AcquireNodeForm.

(** ** NodesHandler *)

Module NodesHandler.
Section handler.
Context `{Collaborators}.

(** [NodesHandler._check_system_ids_exist] *)
Definition _check_system_ids_exist (system_ids : gset string) : M unit :=
  if bool_decide (system_ids = ∅) then ret tt
  else
    existing_nodes <~ filter_system_id_in system_ids ;;
    let existing_ids : gset string :=
      list_to_set (Node.system_id <$> existing_nodes) in
    let unknown_ids := system_ids ∖ existing_ids in
    if bool_decide (0 < size unknown_ids)%nat then
      raise (MAASAPIBadRequest
        ("Unknown node(s): " +:+ join ", " (elements unknown_ids) +:+ "."))
    else ret tt.

(** [[f(x) for x in xs]] *)
Fixpoint for_each {A B} (f : A → M B) (xs : list A) : M (list B) :=
  match xs with
  | [] => ret []
  | x :: rest =>
      y <~ f x ;;
      ys <~ for_each f rest ;;
      ret (y :: ys)
  end.

(** [NodesHandler.accept] *)
Definition accept (request : Request) : M (list Node.t) :=
  let system_ids : gset string :=
    list_to_set (QueryDict.getlist "nodes" (POST request)) in
  (* Check the existence of these nodes first. *)
  _check_system_ids_exist system_ids ;;;
  (* Make sure that the user has the required permission. *)
  nodes <~ get_nodes (user request) NODE_PERMISSION.ADMIN system_ids ;;
  if bool_decide (length nodes < size system_ids)%nat then
    let permitted_ids : gset string :=
      list_to_set (Node.system_id <$> nodes) in
    raise (PermissionDenied
      ("You don't have the required permission to accept the "
       +:+ "following node(s): "
       +:+ join ", " (elements (system_ids ∖ permitted_ids)) +:+ "."))
  else
    results <~ for_each (λ node, accept_enlistment node (user request))
                 nodes ;;
    (* filter(None, results) *)
    ret (omap id results).

(** The [for node in nodes] loop of [NodesHandler.release]. *)
Fixpoint release_loop (nodes : list Node.t)
    (released_ids failed : list string) : M (list string * list string) :=
  match nodes with
  | [] => ret (released_ids, failed)
  | node :: rest =>
      if bool_decide (Node.status node = NODE_STATUS.READY) then
        (* Nothing to do. *)
        release_loop rest released_ids failed
      else if bool_decide (Node.status node ∈ RELEASABLE_STATUSES) then
        save node (release_or_erase node) ;;;
        release_loop rest (released_ids ++ [Node.system_id node]) failed
      else
        release_loop rest released_ids
          (failed ++ [Node.system_id node +:+ " ('"
                      +:+ display_status node +:+ "')"])
  end.

(** [any(xs)] on strings: some string is not empty. *)
Definition any (xs : list string) : bool :=
  existsb (λ x, negb (String.eqb x "")) xs.

(** [NodesHandler.release] *)
Definition release (request : Request) : M (list string) :=
  let system_ids : gset string :=
    list_to_set (QueryDict.getlist "nodes" (POST request)) in
  (* Check the existence of these nodes first. *)
  _check_system_ids_exist system_ids ;;;
  (* Make sure that the user has the required permission. *)
  nodes <~ get_nodes (user request) NODE_PERMISSION.EDIT system_ids ;;
  if bool_decide (length nodes < size system_ids)%nat then
    let permitted_ids : gset string :=
      list_to_set (Node.system_id <$> nodes) in
    raise (PermissionDenied
      ("You don't have the required permission to release the "
       +:+ "following node(s): "
       +:+ join ", " (elements (system_ids ∖ permitted_ids)) +:+ "."))
  else
    lists <~ release_loop nodes [] [] ;;
    let '(released_ids, failed) := lists in
    if any failed then
      raise (NodeStateViolation
        ("Node(s) cannot be released in their current state: "
         +:+ join ", " failed +:+ "."))
    else ret released_ids.

(** [maasserver.utils.orm.get_first] *)
Definition get_first {A} (xs : list A) : option A := head xs.

(** [NodesHandler.acquire].  The lock [locks.node_acquire] serialises the
    calls; a call is modelled as running alone on the database. *)
Definition acquire (request : Request) : M Node.t :=
  let form := clean_constraints (data request) in
  if negb (AcquireNodeForm.is_valid form) then
    raise (ValidationError (form_errors (data request)))
  else
    nodes <~ get_available_nodes_for_acquisition (user request) ;;
    let nodes := AcquireNodeForm.filter_nodes form nodes in
    match get_first nodes with
    | None =>
        let constraints := AcquireNodeForm.describe_constraints form in
        let message :=
          if String.eqb constraints "" then
            (* No constraints.  That means no nodes at all were
               available. *)
            "No node available."
          else
            "No available node matches constraints: " +:+ constraints in
        raise (NodesNotAvailable message)
    | Some node =>
        let agent_name :=
          default "" (QueryDict.get "agent_name" (data request)) in
        acquire_node node (user request) (oauth_token request) agent_name
    end.
End handler.
End NodesHandler.

(** ** A concrete setting for the examples *)

(** Modelled from the spec: the numeric values of [NODE_STATUS] are not in
    the repository.  Section 3 gives the statuses as a fixed ordered set;
    they are numbered here by their position in it. *)
Definition spec_statuses : NODE_STATUS.t :=
  {| NODE_STATUS.NEW := 0;
     NODE_STATUS.COMMISSIONING := 1;
     NODE_STATUS.FAILED_COMMISSIONING := 2;
     NODE_STATUS.READY := 3;
     NODE_STATUS.RESERVED := 4;
     NODE_STATUS.ALLOCATED := 5;
     NODE_STATUS.DEPLOYING := 6;
     NODE_STATUS.DEPLOYED := 7;
     NODE_STATUS.RELEASING := 8;
     NODE_STATUS.DISK_ERASING := 9;
     NODE_STATUS.FAILED_DEPLOYMENT := 10;
     NODE_STATUS.FAILED_RELEASING := 11;
     NODE_STATUS.FAILED_DISK_ERASING := 12;
     NODE_STATUS.BROKEN := 13;
     NODE_STATUS.RETIRED := 14 |}.

Module Example.
#[local] Existing Instance spec_statuses.

(** Modelled from the spec: [RELEASABLE_STATUSES] is not in the repository.
    Section 4.1 gives the releasable group. *)
Definition releasable : list Z :=
  [NODE_STATUS.ALLOCATED; NODE_STATUS.DEPLOYING; NODE_STATUS.DEPLOYED;
   NODE_STATUS.FAILED_DEPLOYMENT; NODE_STATUS.DISK_ERASING;
   NODE_STATUS.FAILED_DISK_ERASING; NODE_STATUS.RELEASING;
   NODE_STATUS.FAILED_RELEASING].

(** A permission oracle: a superuser may do everything, another user may
    view unowned nodes and view and edit the nodes they own. *)
Definition owned_by (user : User) (node : Node.t) : bool :=
  match Node.owner node with
  | Some o => String.eqb (username o) (username user)
  | None => false
  end.

Definition permits (user : User) (perm : NODE_PERMISSION.t)
    (node : Node.t) : bool :=
  if is_superuser user then true
  else match perm with
       | NODE_PERMISSION.VIEW =>
           bool_decide (Node.owner node = None) || owned_by user node
       | NODE_PERMISSION.EDIT => owned_by user node
       | NODE_PERMISSION.ADMIN => false
       end.

(** Modelled from the spec: section 4.1, release clears the owner and may
    leave the status as RELEASING. *)
Definition release_node (node : Node.t) : Node.t :=
  Node.set_owner None None (Node.set_status NODE_STATUS.RELEASING node).

Definition status_name (node : Node.t) : string :=
  let s := Node.status node in
  if s =? NODE_STATUS.NEW then "New"
  else if s =? NODE_STATUS.COMMISSIONING then "Commissioning"
  else if s =? NODE_STATUS.FAILED_COMMISSIONING then "Failed commissioning"
  else if s =? NODE_STATUS.READY then "Ready"
  else if s =? NODE_STATUS.RESERVED then "Reserved"
  else if s =? NODE_STATUS.ALLOCATED then "Allocated"
  else if s =? NODE_STATUS.DEPLOYING then "Deploying"
  else if s =? NODE_STATUS.DEPLOYED then "Deployed"
  else if s =? NODE_STATUS.RELEASING then "Releasing"
  else if s =? NODE_STATUS.DISK_ERASING then "Disk erasing"
  else if s =? NODE_STATUS.FAILED_DEPLOYMENT then "Failed deployment"
  else if s =? NODE_STATUS.FAILED_RELEASING then "Releasing failed"
  else if s =? NODE_STATUS.FAILED_DISK_ERASING then "Failed disk erasing"
  else if s =? NODE_STATUS.BROKEN then "Broken"
  else if s =? NODE_STATUS.RETIRED then "Retired"
  else pretty s.

(** Reading the constraint fields of a request. *)
Definition parse_Z (s : string) : option Z :=
  if String.eqb s "" then None
  else Z.of_uint <$> NilEmpty.uint_of_string s.

Fixpoint strip_prefix (p s : string) : option string :=
  match p, s with
  | EmptyString, _ => Some s
  | String a p', String b s' =>
      if Ascii.eqb a b then strip_prefix p' s' else None
  | String _ _, EmptyString => None
  end.

Fixpoint split_on (c : ascii) (s : string) : list string :=
  match s with
  | EmptyString => [""]
  | String a rest =>
      if Ascii.eqb a c then "" :: split_on c rest
      else match split_on c rest with
           | piece :: pieces => String a piece :: pieces
           | [] => [String a ""]
           end
  end.

Definition parse_octet (s : string) : option Z :=
  match parse_Z s with
  | Some n => if n <=? 255 then Some n else None
  | None => None
  end.

Definition parse_ip (s : string) : option Z :=
  match mapM parse_octet (split_on "." s) with
  | Some [a; b; c; d] => Some (((a * 256 + b) * 256 + c) * 256 + d)
  | _ => None
  end.

Definition parse_network (s : string) : option NetworkSpec :=
  match strip_prefix "vlan:" s, strip_prefix "ip:" s with
  | Some tag, _ => ByVlan <$> parse_Z tag
  | None, Some ip => ByIP <$> parse_ip ip
  | None, None => Some (ByName s)
  end.

Definition parse_minimum (key : string) (d : QueryDict.t)
    : option (option Z) :=
  match QueryDict.get key d with
  | None => Some None
  | Some s => Some <$> parse_Z s
  end.

Definition clean (d : QueryDict.t) : option ConstraintSet :=
  cpu_count ← parse_minimum "cpu_count" d;
  mem ← parse_minimum "mem" d;
  nets ← mapM parse_network (QueryDict.getlist "networks" d);
  not_nets ← mapM parse_network (QueryDict.getlist "not_networks" d);
  Some {| c_name := QueryDict.get "name" d;
          c_arch := QueryDict.get "arch" d;
          c_cpu_count := cpu_count;
          c_mem := mem;
          c_tags := QueryDict.getlist "tags" d;
          c_not_tags := QueryDict.getlist "not_tags" d;
          c_networks := nets;
          c_not_networks := not_nets;
          c_connected_to := QueryDict.getlist "connected_to" d;
          c_not_connected_to := QueryDict.getlist "not_connected_to" d;
          c_zone := QueryDict.get "zone" d;
          c_not_in_zone := QueryDict.getlist "not_in_zone" d |}.

(** A node form that asks for an architecture and enlists the node as
    New. *)
Definition new_node (user : User) (d : QueryDict.t) (db : DB)
    : option Node.t :=
  match QueryDict.get "architecture" d with
  | None => None
  | Some arch =>
      if occurs "/" arch then
        Some {| Node.system_id := "node-" +:+ pretty (length db);
                Node.hostname :=
                  default ("host-" +:+ pretty (length db))
                    (QueryDict.get "hostname" d);
                Node.architecture := arch;
                Node.cpu_count := 0;
                Node.memory := 0;
                Node.status := NODE_STATUS.NEW;
                Node.owner := None;
                Node.token := None;
                Node.agent_name := "";
                Node.zone := "default";
                Node.tags := [];
                Node.routers := [];
                Node.networks := [];
                Node.nodegroup :=
                  default "" (QueryDict.get "nodegroup" d);
                Node.power_type := "";
                Node.power_parameters := "" |}
      else None
  end.

Definition collaborators : Collaborators :=
  {| RELEASABLE_STATUSES := releasable;
     ACCEPTED_STATUSES :=
       [NODE_STATUS.COMMISSIONING; NODE_STATUS.READY];
     has_perm := permits;
     release_or_erase := release_node;
     release_or_erase_system_id := λ _, eq_refl;
     display_status := status_name;
     clean_constraints := clean;
     form_errors := λ _, "invalid";
     node_create_form := new_node;
     find_nodegroup := λ _, Some "master";
     get_power_types := λ _, ["ether_wake"; "ipmi"; "virsh"];
     UNKNOWN_POWER_TYPE := "";
     json_loads := λ s, if occurs "{" s then Some s else None |}.

Definition alice : User := {| username := "alice"; is_superuser := false |}.
Definition root : User := {| username := "root"; is_superuser := true |}.

Definition machine (system_id arch : string) (mem : Z) (status : Z)
    (owner : option User) : Node.t :=
  {| Node.system_id := system_id; Node.hostname := system_id;
     Node.architecture := arch; Node.cpu_count := 1; Node.memory := mem;
     Node.status := status; Node.owner := owner; Node.token := None;
     Node.agent_name := ""; Node.zone := "default"; Node.tags := [];
     Node.routers := []; Node.networks := []; Node.nodegroup := "master";
     Node.power_type := ""; Node.power_parameters := "" |}.

Definition request_of (user : User) (fields : list (string * list string))
    : Request :=
  {| user := user; oauth_token := "token";
     data := list_to_map fields; POST := list_to_map fields |}.

(** The registry of the end-to-end example of section 8. *)
Definition n1 : Node.t :=
  machine "n1" "amd64/generic" 2048 NODE_STATUS.READY None.
Definition n2 : Node.t :=
  machine "n2" "i386/generic" 1024 NODE_STATUS.READY None.
Definition registry : DB := [n1; n2].

(** A pool with an allocated, a new, a ready and a deployed node. *)
Definition pool : DB :=
  [machine "a" "amd64/generic" 2048 NODE_STATUS.ALLOCATED (Some alice);
   machine "b" "amd64/generic" 2048 NODE_STATUS.NEW None;
   machine "c" "i386/generic" 1024 NODE_STATUS.READY None;
   machine "d" "armhf/highbank" 1024 NODE_STATUS.DEPLOYED (Some root)].

End Example.

(** ** Vocabulary of the statements about the bulk handlers *)

Section bulk_vocabulary.
Context `{Collaborators}.

(** [set(request.POST.getlist('nodes'))] *)
Definition requested_ids (request : Request) : gset string :=
  list_to_set (QueryDict.getlist "nodes" (POST request)).

(** The node is not READY and its status is releasable: the loop of
    [NodesHandler.release] releases it. *)
Definition releasable_now (node : Node.t) : Prop :=
  Node.status node ≠ NODE_STATUS.READY
  ∧ Node.status node ∈ RELEASABLE_STATUSES.

(** The node is neither READY nor releasable: the loop reports it. *)
Definition not_releasable (node : Node.t) : Prop :=
  Node.status node ≠ NODE_STATUS.READY
  ∧ Node.status node ∉ RELEASABLE_STATUSES.

#[global] Instance releasable_now_dec node : Decision (releasable_now node).
Proof. unfold releasable_now. apply _. Defined.

#[global] Instance not_releasable_dec node : Decision (not_releasable node).
Proof. unfold not_releasable. apply _. Defined.

(** The entry of a node in the message of the failed release. *)
Definition failure_entry (node : Node.t) : string :=
  Node.system_id node +:+ " ('" +:+ display_status node +:+ "')".

(** The rows whose identifier is in [done] are replaced by [change]. *)
Definition rewrite_rows (change : Node.t → Node.t) (done : list string)
    (row : Node.t) : Node.t :=
  if bool_decide (Node.system_id row ∈ done) then change row else row.
End bulk_vocabulary.

(** ** Vocabulary of the statements about acquisition *)

Section acquire_vocabulary.
Context `{Collaborators}.

(** The nodes that [NodesHandler.acquire] chooses from: the available nodes
    that the form of the request lets through, in the order of the table. *)
Definition candidates (request : Request) (db : DB) : list Node.t :=
  AcquireNodeForm.filter_nodes (clean_constraints (data request))
    (filter (λ row,
       Node.status row = NODE_STATUS.READY
       ∧ has_perm (user request) NODE_PERMISSION.VIEW row
       ∧ Node.owner row = None) db).

(** The node as [NodesHandler.acquire] hands it to the requester. *)
Definition granted (request : Request) (node : Node.t) : Node.t :=
  Node.set_agent_name
    (default "" (QueryDict.get "agent_name" (data request)))
    (Node.set_owner (Some (user request)) (Some (oauth_token request))
       (Node.set_status NODE_STATUS.ALLOCATED node)).

(** The message of NodesNotAvailable for a rendering of the constraints. *)
Definition no_match_message (constraints : string) : string :=
  if String.eqb constraints "" then "No node available."
  else "No available node matches constraints: " +:+ constraints.

End acquire_vocabulary.

(** ** The rest of [maas_extra/nodes.py] *)

(** What the other handlers use from [maasserver]. *)
Class Reporting : Type := {
  (** [maasserver.api.support.METHOD_RESERVED_ADMIN], the text of the 403
      that an [admin_method] answers to a user who is not an admin *)
  METHOD_RESERVED_ADMIN : string;
  (** [Node.get_deployment_status] *)
  get_deployment_status : Node.t → string
}.

(** [maasserver.api.utils.get_optional_list]: the values sent for the key,
    [None] when there is none. *)
Definition get_optional_list (d : QueryDict.t) (key : string)
    : option (list string) :=
  match QueryDict.getlist key d with
  | [] => None
  | values => Some values
  end.

(** The request with other data. *)
Definition with_data (d : QueryDict.t) (request : Request) : Request :=
  {| user := user request; oauth_token := oauth_token request;
     data := d; POST := POST request |}.

(** [{key(x): value(x) for x in xs}]: a later entry replaces an earlier one
    with the same key. *)
Definition dict_of {A} (key value : A → string) (xs : list A)
    : gmap string string :=
  foldl (λ response x, <[key x := value x]> response) ∅ xs.

Module AnonNodesHandler.
Section handler.
Context `{Collaborators}.

(** [AnonNodesHandler.new] *)
Definition new (request : Request) : M Node.t := create_node request.

(** [AnonNodesHandler.accept] *)
Definition accept (request : Request) : M (list Node.t) :=
  raise (Unauthorized "You must be logged in to accept nodes.").
End handler.
End AnonNodesHandler.

Module NodesHandlerRest.
Section handler.
Context `{Collaborators} `{Reporting}.

(** The decorator [maasserver.api.support.admin_method]: 403 for a user who
    is not an admin, as the docstrings of the decorated methods say. *)
Definition admin_method {A} (method : Request → M A) (request : Request)
    : M A :=
  if negb (is_superuser (user request)) then
    raise (PermissionDenied METHOD_RESERVED_ADMIN)
  else method request.

(** [NodesHandler.new].  [node.accept_enlistment] changes the node object,
    which is the one returned. *)
Definition new (request : Request) : M Node.t :=
  node <~ create_node request ;;
  if is_superuser (user request) then
    accepted <~ accept_enlistment node (user request) ;;
    ret (default node accepted)
  else ret node.

(** [Node.objects.get_nodes(user, perm)], without identifiers: every row on
    which the permission oracle grants [perm] to the user. *)
Definition get_all_nodes (user : User) (perm : NODE_PERMISSION.t)
    : M (list Node.t) :=
  query (filter (λ row, has_perm user perm row)).

(** [NodesHandler.accept_all] *)
Definition accept_all (request : Request) : M (list Node.t) :=
  nodes <~ get_all_nodes (user request) NODE_PERMISSION.ADMIN ;;
  let nodes :=
    filter (λ node, Node.status node = NODE_STATUS.NEW) nodes in
  nodes <~ NodesHandler.for_each
             (λ node, accept_enlistment node (user request)) nodes ;;
  ret (omap id nodes).

(** [NodesHandler.power_parameters]; [request.GET] is the second
    argument. *)
Definition power_parameters (request : Request) (GET : QueryDict.t)
    : M (gmap string string) :=
  admin_method (λ request,
    let match_ids := get_optional_list GET "id" in
    nodes <~ match match_ids with
             | None => query (λ db, db)
             | Some match_ids =>
                 query (filter (λ row, Node.system_id row ∈ match_ids))
             end ;;
    ret (dict_of Node.system_id Node.power_parameters nodes)) request.

(** [NodesHandler.deployment_status]; [request.GET] is the second
    argument. *)
Definition deployment_status (request : Request) (GET : QueryDict.t)
    : M (gmap string string) :=
  let system_ids : gset string :=
    list_to_set (QueryDict.getlist "nodes" GET) in
  (* Check the existence of these nodes first. *)
  NodesHandler._check_system_ids_exist system_ids ;;;
  (* Make sure that the user has the required permission. *)
  nodes <~ get_nodes (user request) NODE_PERMISSION.VIEW system_ids ;;
  let permitted_ids : gset string :=
    list_to_set (Node.system_id <$> nodes) in
  if bool_decide (length nodes ≠ size system_ids) then
    raise (PermissionDenied
      ("You don't have the required permission to view the "
       +:+ "following node(s): "
       +:+ join ", " (elements (system_ids ∖ permitted_ids)) +:+ "."))
  else
    (* Create a dict of system_id to status. *)
    ret (dict_of Node.system_id get_deployment_status nodes).
End handler.
End NodesHandlerRest.

(** ** NodesHandler.check_commissioning *)

Module Commissioning.
(** A row of [maasserver_node] with its [updated] column, a time stamp of
    the database clock. *)
Record row : Type := {
  node : Node.t;
  updated : Z
}.

Section query.
Context `{NODE_STATUS.t}.

(** The [WHERE] clause: the node is commissioning and was last updated at
    or before [now() - interval]. *)
Definition timed_out (now interval : Z) (r : row) : Prop :=
  Node.status (node r) = NODE_STATUS.COMMISSIONING
  ∧ updated r ≤ now - interval.

#[global] Instance timed_out_dec now interval r :
  Decision (timed_out now interval r).
Proof. unfold timed_out. apply _. Defined.


End query.
End Commissioning.

(** ** maas_deploy/fabfile.py *)

Module Fabfile.
Inductive colour : Type := Cyan | Green | Red.

(** What the script does to the outside, in order. *)
Inductive action : Type :=
  | Sudo (command : string)
  | Run (command : string)
  | Put (local_path remote_path : string)
  | Sed (filename before after : string)
  | Append (filename text : string) (use_sudo partial escape shell : bool)
  | Print (c : colour) (text : string)
  | RawInput (prompt : string).

(** The lines still to be typed and what was done so far. *)
Record world : Type := {
  stdin : list string;
  trace : list action
}.

Inductive result (A : Type) : Type :=
  | Finished (a : A) (w : world)
  | EOFError (w : world)
  | OutOfFuel (w : world).
Arguments Finished {A} a w.
Arguments EOFError {A} w.
Arguments OutOfFuel {A} w.

Definition script (A : Type) : Type := world → result A.

Definition pure {A} (a : A) : script A := λ w, Finished a w.

Definition and_then {A B} (c : script A) (k : A → script B) : script B :=
  λ w, match c w with
       | Finished a w' => k a w'
       | EOFError w' => EOFError w'
       | OutOfFuel w' => OutOfFuel w'
       end.

Notation "x <- c ;;; k" := (and_then c (λ x, k))
  (at level 100, c at next level, right associativity).
Notation "c >>> k" := (and_then c (λ _, k))
  (at level 100, right associativity).

Definition perform (a : action) : script unit :=
  λ w, Finished tt {| stdin := stdin w; trace := trace w ++ [a] |}.

(** [raw_input(prompt)] *)
Definition raw_input (prompt : string) : script string :=
  λ w, match stdin w with
       | [] => EOFError {| stdin := []; trace := trace w ++ [RawInput prompt] |}
       | line :: rest =>
           Finished line {| stdin := rest;
                            trace := trace w ++ [RawInput prompt] |}
       end.

(** One pass of a loop body either goes on with the loop variable or
    returns from the function. *)
Inductive pass (St : Type) : Type :=
  | Continue (s : St)
  | Returned.
Arguments Continue {St} s.
Arguments Returned {St}.

(** [while cond(s): body] *)
Fixpoint while {St} (fuel : nat) (cond : St → bool)
    (body : St → script (pass St)) (s : St) : script unit :=
  match fuel with
  | O => λ w, OutOfFuel w
  | S fuel =>
      if cond s then
        p <- body s ;;;
        match p with
        | Continue s' => while fuel cond body s'
        | Returned => pure tt
        end
      else pure tt
  end.

Definition newline : string := String "010"%char "".

(** The body of the loop of [install_maas]. *)
Definition ask_wakeonlan (path_to_configs : string) (answer : string)
    : script (pass string) :=
  eth_name <- raw_input
                "Please specify ethernet device name for wakeonlan: " ;;;
  perform (Print Cyan
             ("Ethernet device for wakeonlan is set to: " +:+ eth_name)) >>>
  answer <- raw_input "Correct? [y/n]:" ;;;
  if String.eqb answer "y" then
    perform (Put (path_to_configs +:+ "/ether_wake.template")
               "/tmp/ether_wake.template") >>>
    let config_file := "/tmp/ether_wake.template" in
    let searchExp := "/usr/sbin/etherwake \$mac_address" in
    let replaceExp :=
      "sudo /usr/sbin/etherwake -i " +:+ eth_name +:+ " \$mac_address" in
    perform (Sed config_file searchExp replaceExp) >>>
    perform (Sudo ("mv /tmp/ether_wake.template "
                   +:+ "/etc/maas/templates/power/ether_wake.template")) >>>
    perform (Run ("rm -rf " +:+ config_file +:+ ".bak")) >>>
    perform (Put (path_to_configs +:+ "/99-maas-sudoers")
               "/tmp/99-maas-sudoers") >>>
    let config_file := "/tmp/99-maas-sudoers" in
    let text := "maas ALL= NOPASSWD: /usr/sbin/etherwake" in
    perform (Append config_file text true true true false) >>>
    perform (Sudo "mv /tmp/99-maas-sudoers /etc/sudoers.d/99-maas-sudoers") >>>
    perform (Run ("rm -rf " +:+ config_file +:+ ".bak")) >>>
    perform (Print Green
               "Wakeonlan configured. Maas is installed properly.") >>>
    pure Returned
  else
    perform (Print Green "Maas is installed properly.") >>>
    perform (Print Red
               ("Alert: Didn't setup wakeonlan. Hit possibility of not "
                +:+ "being able to do wakeonlan properly." +:+ newline
                +:+ "Please do manual configuration!")) >>>
    pure Returned.

(** [install_maas] *)
Definition install_maas (fuel : nat) : script unit :=
  perform (Sudo "add-apt-repository ppa:maas-maintainers/stable") >>>
  perform (Sudo "apt-get update") >>>
  perform (Sudo "apt-get install -y maas maas-dhcp maas-dns") >>>
  let path_to_configs := "/home/user/maas" in
  let answer := "unknown" in
  while fuel
    (λ answer, negb (String.eqb answer "y") || negb (String.eqb answer "n"))
    (ask_wakeonlan path_to_configs) answer.

End Fabfile.

(** ** A concrete setting for the other handlers *)

Module ExampleReports.
Definition reporting : Reporting :=
  {| METHOD_RESERVED_ADMIN := "That method is reserved to admin users.";
     get_deployment_status := Example.status_name |}.

(** The pool with power parameters on two machines. *)
Definition powered : DB :=
  [Node.set_power_parameters "{'power_address': '10.0.0.1'}"
     (Example.machine "a" "amd64/generic" 2048 5 (Some Example.alice));
   Example.machine "b" "amd64/generic" 2048 0 None;
   Node.set_power_parameters "{'power_address': '10.0.0.3'}"
     (Example.machine "c" "i386/generic" 1024 3 None)].

End ExampleReports.

(** ** Vocabulary of the invariants *)

(** The computation leaves the identifiers of the rows, in their order, as
    they were, whatever it returns or raises. *)
Definition keeps_identifiers {A} (c : M A) : Prop :=
  ∀ db, Node.system_id <$> (c db).1 = Node.system_id <$> db.

(** The computation leaves the table as it was, whatever it returns or
    raises. *)
Definition read_only {A} (c : M A) : Prop :=
  ∀ db, (c db).1 = db.

(** * Verification *)

(** A decidable proposition on closed terms, settled by evaluation. *)
Ltac by_computation :=
  refine (bool_decide_unpack _ _); vm_compute; exact I.

(** ** The monad *)

Lemma bind_return {A B} (c : M A) (k : A → M B) db db' a :
  c db = (db', Return a) → bind c k db = k a db'.
Proof. intros Hc. unfold bind. by rewrite Hc. Qed.

Lemma bind_raise {A B} (c : M A) (k : A → M B) db db' e :
  c db = (db', Raise e) → bind c k db = (db', Raise e).
Proof. intros Hc. unfold bind. by rewrite Hc. Qed.

Lemma bind_query {A B} (q : DB → A) (k : A → M B) db :
  bind (query q) k db = k (q db) db.
Proof. reflexivity. Qed.

Lemma bind_update {B} (f : DB → DB) (k : unit → M B) db :
  bind (update f) k db = k tt (f db).
Proof. reflexivity. Qed.

(** ** The status views *)

Section views.
Context `{NODE_STATUS.t}.

(** C7.  The substatus view is the stored status of the node, whatever
    value the status field holds. *)
Theorem substatus_is_stored_status (node : Node.t) (s : Z) :
  NodeHandler.substatus node = Node.status node
  ∧ NodeHandler.substatus (Node.set_status s node) = s.
Proof. split; reflexivity. Qed.

(** C1, as amended.  The coarse status view shows each of ALLOCATED,
    DEPLOYING, DEPLOYED, FAILED_DEPLOYMENT, RELEASING, DISK_ERASING,
    FAILED_RELEASING and FAILED_DISK_ERASING as the one value 6, the same
    for both groups, and every other status unchanged. *)
Theorem status_folds_deployment_statuses (node : Node.t) :
  (Node.status node ∈
     [NODE_STATUS.ALLOCATED; NODE_STATUS.DEPLOYING; NODE_STATUS.DEPLOYED;
      NODE_STATUS.FAILED_DEPLOYMENT; NODE_STATUS.RELEASING;
      NODE_STATUS.DISK_ERASING; NODE_STATUS.FAILED_RELEASING;
      NODE_STATUS.FAILED_DISK_ERASING] →
   NodeHandler.status node = 6)
  ∧ (Node.status node ∉
       [NODE_STATUS.ALLOCATED; NODE_STATUS.DEPLOYING; NODE_STATUS.DEPLOYED;
        NODE_STATUS.FAILED_DEPLOYMENT; NODE_STATUS.RELEASING;
        NODE_STATUS.DISK_ERASING; NODE_STATUS.FAILED_RELEASING;
        NODE_STATUS.FAILED_DISK_ERASING] →
     NodeHandler.status node = Node.status node).
Proof.
  unfold NodeHandler.status, NodeHandler.old_allocated_status_aliases,
    NodeHandler.old_deployed_status_aliases.
  split; intros Hin; case_bool_decide; simpl in *; done.
Qed.
End views.

Lemma status_folds_deployment_statuses_witness :
  @NodeHandler.status spec_statuses
    (Example.machine "a" "amd64/generic" 1024
       (@NODE_STATUS.FAILED_DISK_ERASING spec_statuses) None) = 6
  ∧ @NodeHandler.status spec_statuses
      (Example.machine "b" "amd64/generic" 1024
         (@NODE_STATUS.BROKEN spec_statuses) None) = 13.
Proof.
  split.
  - apply (proj1 (@status_folds_deployment_statuses spec_statuses _)).
    by_computation.
  - apply (proj2 (@status_folds_deployment_statuses spec_statuses
                    (Example.machine "b" "amd64/generic" 1024 13 None))).
    by_computation.
Defined.

(** C1, as stated, fails: an ALLOCATED node and a RELEASING node are shown
    with the same coarse status, so the two groups are not told apart. *)
Lemma status_groups_not_distinct :
  let allocated :=
    Example.machine "a" "amd64/generic" 1024
      (@NODE_STATUS.ALLOCATED spec_statuses) None in
  let releasing :=
    Example.machine "b" "amd64/generic" 1024
      (@NODE_STATUS.RELEASING spec_statuses) None in
  ¬ (@NodeHandler.status spec_statuses allocated
     ≠ @NodeHandler.status spec_statuses releasing).
Proof. intros allocated releasing Hne. apply Hne. reflexivity. Qed.

(** ** Releasing one node *)

Section single_release.
Context `{Collaborators}.

Lemma get_node_or_404_found system_id user perm db node :
  head (filter (λ row, Node.system_id row = system_id) db) = Some node →
  has_perm user perm node = true →
  get_node_or_404 system_id user perm db = (db, Return node).
Proof.
  intros Hhead Hperm. unfold get_node_or_404. rewrite bind_query.
  cbv beta. destruct (filter _ db) as [|first rest]; simplify_eq/=.
  by rewrite Hperm.
Qed.

(** C2.  For a node that the request may edit, [NodeHandler.release]
    returns the node with the database untouched when the status is READY,
    releases the node ([release_or_erase], written back to its row) when the
    status is releasable, and for every other status raises
    NodeStateViolation and leaves the database untouched. *)
Theorem release_by_status (request : Request) (system_id : string)
    (db : DB) (node : Node.t) :
  head (filter (λ row, Node.system_id row = system_id) db) = Some node →
  has_perm (user request) NODE_PERMISSION.EDIT node = true →
  NODE_STATUS.READY ∉ RELEASABLE_STATUSES →
  (Node.status node = NODE_STATUS.READY →
     NodeHandler.release request system_id db = (db, Return node))
  ∧ (Node.status node ∈ RELEASABLE_STATUSES →
       NodeHandler.release request system_id db
       = ((λ row, if bool_decide (Node.system_id row = Node.system_id node)
                  then release_or_erase node else row) <$> db,
          Return (release_or_erase node)))
  ∧ (Node.status node ≠ NODE_STATUS.READY →
     Node.status node ∉ RELEASABLE_STATUSES →
       NodeHandler.release request system_id db
       = (db, Raise (NodeStateViolation
                ("Node cannot be released in its current state ('"
                 +:+ display_status node +:+ "')."))%string)).
Proof.
  intros Hhead Hperm Hready. unfold NodeHandler.release.
  rewrite (bind_return _ _ _ _ _ (get_node_or_404_found _ _ _ _ _ Hhead Hperm)).
  repeat split.
  - intros Hs. by rewrite bool_decide_true.
  - intros Hs. rewrite bool_decide_false by congruence.
    by rewrite bool_decide_true.
  - intros Hs Hn. by rewrite !bool_decide_false.
Qed.
End single_release.

Lemma release_by_status_witness :
  let request := Example.request_of Example.root [] in
  let node :=
    Example.machine "a" "amd64/generic" 2048
      (@NODE_STATUS.ALLOCATED spec_statuses) (Some Example.alice) in
  @NodeHandler.release _ Example.collaborators request "a" Example.pool
  = ((λ row, if bool_decide (Node.system_id row = "a")
             then Example.release_node node else row) <$> Example.pool,
     Return (Example.release_node node)).
Proof.
  intros request node.
  refine (proj1 (proj2 (@release_by_status _ Example.collaborators
                          request "a" Example.pool node _ _ _)) _).
  - reflexivity.
  - reflexivity.
  - by_computation.
  - by_computation.
Defined.

(** ** Creating a node *)

Lemma occurs_app (c : ascii) (s1 s2 : string) :
  occurs c (s1 +:+ s2) = occurs c s1 || occurs c s2.
Proof.
  induction s1 as [|a s1 IH]; simpl; [done|].
  destruct (Ascii.eqb c a); [done|]. apply IH.
Qed.

Lemma truthy_Some (s : string) : s ≠ "" → truthy (Some s) = true.
Proof.
  intros Hs. simpl. apply negb_true_iff. by apply String.eqb_neq.
Qed.

Lemma QueryDict_get_setitem (key value : string) (d : QueryDict.t) :
  QueryDict.get key (QueryDict.setitem key value d) = Some value.
Proof.
  unfold QueryDict.get, QueryDict.setitem. by rewrite lookup_insert_eq.
Qed.

Lemma QueryDict_get_delitem_ne (key key' : string) (d : QueryDict.t) :
  key ≠ key' →
  QueryDict.get key (QueryDict.delitem key' d) = QueryDict.get key d.
Proof.
  intros Hne. unfold QueryDict.get, QueryDict.delitem.
  by rewrite lookup_delete_ne.
Qed.

Lemma QueryDict_get_setitem_ne (key key' value : string) (d : QueryDict.t) :
  key ≠ key' →
  QueryDict.get key (QueryDict.setitem key' value d) = QueryDict.get key d.
Proof.
  intros Hne. unfold QueryDict.get, QueryDict.setitem.
  by rewrite lookup_insert_ne.
Qed.

Section creation_facts.
Context `{Collaborators}.

(** Writing a node back leaves every other row as it was, and puts the node
    written in the place of the row it replaces. *)
Lemma save_rows (node node' : Node.t) (db : DB) :
  let db' :=
    (λ row, if bool_decide (Node.system_id row = Node.system_id node)
            then node' else row) <$> db in
  (∀ row, row ∈ db' → row ∈ db ∨ row = node')
  ∧ (node ∈ db → node' ∈ db').
Proof.
  intros db'. split.
  - intros row (r & -> & Hr)%list_elem_of_fmap.
    case_bool_decide; [by right|by left].
  - intros Hin. apply list_elem_of_fmap. exists node.
    by rewrite bool_decide_true.
Qed.

(** [store_node_power_parameters] never changes an architecture: a row that
    it writes, and the node that it returns, have the architecture of the
    node that it was given. *)
Lemma store_node_power_parameters_architecture (node : Node.t)
    (request : Request) (db db' : DB) (out : outcome Node.t) :
  store_node_power_parameters node request db = (db', out) →
  (∀ row, row ∈ db' →
     row ∈ db ∨ Node.architecture row = Node.architecture node)
  ∧ (∀ node', out = Return node' →
       Node.architecture node' = Node.architecture node
       ∧ (node ∈ db → node' ∈ db')).
Proof.
  assert (∀ node', Node.architecture node' = Node.architecture node →
            save node node' db
            = ((λ row,
                  if bool_decide (Node.system_id row = Node.system_id node)
                  then node' else row) <$> db, Return tt) →
            (∀ row, row ∈ (save node node' db).1 →
               row ∈ db ∨ Node.architecture row = Node.architecture node)
            ∧ (node ∈ db → node' ∈ (save node node' db).1)) as Hsave.
  { intros node' Harch ->. simpl.
    destruct (save_rows node node' db) as [Hrows Hnode]. split; [|done].
    intros row Hrow. destruct (Hrows row Hrow) as [?| ->]; [by left|].
    by right. }
  unfold store_node_power_parameters.
  destruct (QueryDict.get "power_type" (POST request)) as [power_type|].
  - destruct (_ || _).
    + destruct (_ && _).
      * destruct (json_loads _) as [parsed|].
        -- intros Hrun.
           destruct (Hsave (Node.set_power_parameters parsed
                              (Node.set_power_type power_type node))
                       eq_refl eq_refl) as [Hrows Hnode].
           unfold bind, ret in Hrun. simpl in *. injection Hrun as <- <-.
           split; [done|]. by intros node' [= <-].
        -- intros [= <- <-]. split; [by left|done].
      * intros Hrun.
        destruct (Hsave (Node.set_power_type power_type node)
                    eq_refl eq_refl) as [Hrows Hnode].
        unfold bind, ret in Hrun. simpl in *. injection Hrun as <- <-.
        split; [done|]. by intros node' [= <-].
    + intros [= <- <-]. split; [by left|done].
  - intros [= <- <-]. split; [by left|]. by intros node' [= <-].
Qed.

(** C8.  For a request that gives an architecture (and not, with an
    architecture that contains '/', a subarchitecture as well): the
    normalised architecture is the architecture followed by '/generic' when
    it has no '/' and no subarchitecture is given, the architecture joined
    to the subarchitecture by '/' when it has no '/' and a subarchitecture
    is given, and the architecture itself when it contains '/'; in each case
    it contains '/'.  Unless the call is refused for its node group before
    the node form is built, the form receives data whose architecture is the
    normalised one, and the call is what the form makes of these data: the
    node of the form appended to the table and handed to
    [store_node_power_parameters], or the errors of the form.  With a form
    that gives a node the architecture it receives, every row that the call
    writes, and the node that it returns, has the normalised
    architecture. *)
Theorem create_node_normalises_architecture (request : Request) (db : DB)
    (arch : string) :
  QueryDict.get "architecture" (data request) = Some arch →
  arch ≠ "" →
  let subarch := QueryDict.get "subarchitecture" (data request) in
  (occurs "/" arch = true → truthy subarch = false) →
  let normalised :=
    if occurs "/" arch then arch
    else if truthy subarch then arch +:+ "/" +:+ default "" subarch
    else arch +:+ "/generic" in
  let altered :=
    if occurs "/" arch then data request
    else if truthy subarch then
      QueryDict.delitem "subarchitecture"
        (QueryDict.setitem "architecture" normalised (data request))
    else QueryDict.setitem "architecture" normalised (data request) in
  occurs "/" normalised = true
  ∧ ((QueryDict.contains "nodegroup" altered = false
      ∧ QueryDict.get "autodetect_nodegroup" (data request) = None
      ∧ create_node request db
        = (db, Raise (ValidationError
             ("'autodetect_nodegroup' must be specified if 'nodegroup' "
              +:+ "parameter missing"))))
     ∨ ∃ received,
         (received = altered
          ∨ ∃ nodegroup,
              received = QueryDict.setitem "nodegroup" nodegroup altered)
         ∧ QueryDict.get "architecture" received = Some normalised
         ∧ create_node request db
           = match node_create_form (user request) received db with
             | Some node =>
                 store_node_power_parameters node request (db ++ [node])
             | None => (db, Raise (ValidationError (form_errors received)))
             end)
  ∧ ((∀ d table node,
        node_create_form (user request) d table = Some node →
        QueryDict.get "architecture" d = Some (Node.architecture node)) →
     ∀ db' out,
       create_node request db = (db', out) →
       (∀ row, row ∈ db' → row ∈ db ∨ Node.architecture row = normalised)
       ∧ (∀ node, out = Return node →
            Node.architecture node = normalised ∧ node ∈ db')).
Proof.
  intros Harch Hne subarch Honce normalised altered.
  pose proof (truthy_Some arch Hne) as Htrue.
  assert (occurs "/" normalised = true) as Hslash.
  { unfold normalised. destruct (occurs "/" arch) eqn:Ho; [done|].
    destruct (truthy subarch); rewrite occurs_app; simpl;
      by rewrite orb_true_r. }
  assert (create_node_architecture request db = (db, Return altered))
    as Hfirst.
  { unfold create_node_architecture, altered, normalised.
    fold subarch. rewrite Harch, Htrue. simpl.
    destruct (occurs "/" arch) eqn:Ho.
    - by rewrite Honce.
    - by destruct (truthy subarch). }
  assert (QueryDict.get "architecture" altered = Some normalised) as Hgiven.
  { unfold altered, normalised. destruct (occurs "/" arch); [done|].
    destruct (truthy subarch).
    - rewrite QueryDict_get_delitem_ne by done. apply QueryDict_get_setitem.
    - apply QueryDict_get_setitem. }
  split; [done|].
  match goal with |- ?P ∧ _ => assert P as Hform end.
  { unfold create_node. erewrite bind_return by exact Hfirst.
    unfold create_node_store, create_node_nodegroup.
    destruct (QueryDict.contains "nodegroup" altered) eqn:Hgroup; simpl.
    - right. exists altered. split; [by left|]. split; [done|].
      unfold bind, ret, query, update, raise.
      by destruct (node_create_form (user request) altered db).
    - destruct (QueryDict.get "autodetect_nodegroup" (data request))
        as [auto|] eqn:Hauto.
      + right. destruct (find_nodegroup request) as [nodegroup|].
        * exists (QueryDict.setitem "nodegroup" nodegroup altered).
          split; [right; by exists nodegroup|].
          split; [by rewrite QueryDict_get_setitem_ne|].
          unfold bind, ret, query, update, raise.
          by destruct (node_create_form (user request) _ db).
        * exists altered. split; [by left|]. split; [done|].
          unfold bind, ret, query, update, raise.
          by destruct (node_create_form (user request) altered db).
      + left. done. }
  split; [done|].
  intros Hlaw db' out Hrun.
  destruct Hform as [(_ & _ & Hraise)|(received & _ & Hrec & Hcall)].
  - rewrite Hraise in Hrun. injection Hrun as <- <-. split; [by left|done].
  - rewrite Hcall in Hrun.
    destruct (node_create_form (user request) received db) as [node|] eqn:Hf.
    + pose proof (Hlaw _ _ _ Hf) as Hstored. rewrite Hrec in Hstored.
      injection Hstored as Hstored.
      destruct (store_node_power_parameters_architecture _ _ _ _ _ Hrun)
        as [Hrows Hret].
      split.
      * intros row Hrow. destruct (Hrows row Hrow) as [Hin|Hin].
        -- apply elem_of_app in Hin as [Hin|Hin]; [by left|].
           apply list_elem_of_singleton in Hin as ->. by right.
        -- right. by rewrite Hin.
      * intros node' ->. destruct (Hret node' eq_refl) as [Hsame Hin].
        split; [by rewrite Hsame|]. apply Hin, elem_of_app. right.
        by apply list_elem_of_singleton.
    + injection Hrun as <- <-. split; [by left|done].
Qed.

(** C10.  A request whose architecture contains '/' and that also gives a
    subarchitecture is refused with the validation error 'Subarchitecture
    cannot be specified twice.', and the database is left as it was. *)
Theorem create_node_subarchitecture_twice (request : Request) (db : DB)
    (arch : string) :
  QueryDict.get "architecture" (data request) = Some arch →
  occurs "/" arch = true →
  truthy (QueryDict.get "subarchitecture" (data request)) = true →
  create_node request db
  = (db, Raise (ValidationError "Subarchitecture cannot be specified twice.")).
Proof.
  intros Harch Hslash Hsub.
  assert (truthy (Some arch) = true) as Htrue.
  { apply truthy_Some. intros ->. done. }
  unfold create_node, create_node_architecture.
  rewrite Harch, Htrue, Hsub. simpl. by rewrite Hslash.
Qed.
End creation_facts.

(** The node form of the examples gives a node the architecture that it
    receives. *)
Lemma new_node_architecture (user : User) (d : QueryDict.t) (table : DB)
    (node : Node.t) :
  Example.new_node user d table = Some node →
  QueryDict.get "architecture" d = Some (Node.architecture node).
Proof.
  unfold Example.new_node.
  destruct (QueryDict.get "architecture" d) as [arch|]; [|done].
  destruct (occurs "/" arch); [|done]. by intros [= <-].
Qed.

Lemma create_node_normalises_architecture_witness :
  let bare :=
    Example.request_of Example.root
      [("architecture", ["amd64"]); ("nodegroup", ["master"])] in
  let split :=
    Example.request_of Example.root
      [("architecture", ["armhf"]); ("subarchitecture", ["highbank"]);
       ("autodetect_nodegroup", ["1"])] in
  let full :=
    Example.request_of Example.root
      [("architecture", ["i386/generic"]); ("nodegroup", ["master"]);
       ("power_type", ["ipmi"])] in
  let stored request architecture :=
    ∃ node table,
      @create_node _ Example.collaborators request Example.pool
      = (table, Return node)
      ∧ length table = 5%nat
      ∧ Node.architecture node = architecture
      ∧ node ∈ table in
  stored bare "amd64/generic"
  ∧ stored split "armhf/highbank"
  ∧ stored full "i386/generic".
Proof.
  intros bare split full stored.
  assert ("amd64" ≠ "" ∧ "armhf" ≠ "" ∧ "i386/generic" ≠ "")
    as (Ha & Hb & Hc) by by_computation.
  pose proof (@create_node_normalises_architecture _ Example.collaborators
                bare Example.pool "amd64" eq_refl Ha
                (λ Hslash, False_ind _ (diff_false_true Hslash)))
    as (_ & _ & Hbare).
  pose proof (@create_node_normalises_architecture _ Example.collaborators
                split Example.pool "armhf" eq_refl Hb
                (λ Hslash, False_ind _ (diff_false_true Hslash)))
    as (_ & _ & Hsplit).
  pose proof (@create_node_normalises_architecture _ Example.collaborators
                full Example.pool "i386/generic" eq_refl Hc
                (λ _, eq_refl))
    as (_ & _ & Hfull).
  unfold stored. split; [|split];
    match goal with
    | |- ∃ node table, ?call = _ ∧ _ =>
        let result := eval vm_compute in call in
        match result with
        | (?table, Return ?node) => exists node, table
        end
    end.
  - split; [by vm_compute|]. split; [reflexivity|].
    exact (proj2 (Hbare (new_node_architecture Example.root) _ _ eq_refl)
             _ eq_refl).
  - split; [by vm_compute|]. split; [reflexivity|].
    exact (proj2 (Hsplit (new_node_architecture Example.root) _ _ eq_refl)
             _ eq_refl).
  - split; [by vm_compute|]. split; [reflexivity|].
    exact (proj2 (Hfull (new_node_architecture Example.root) _ _ eq_refl)
             _ eq_refl).
Defined.

Lemma create_node_subarchitecture_twice_witness :
  @create_node _ Example.collaborators
    (Example.request_of Example.root
       [("architecture", ["armhf/highbank"]);
        ("subarchitecture", ["highbank"])])
    Example.pool
  = (Example.pool,
     Raise (ValidationError "Subarchitecture cannot be specified twice.")).
Proof.
  exact (@create_node_subarchitecture_twice _ Example.collaborators
           (Example.request_of Example.root
              [("architecture", ["armhf/highbank"]);
               ("subarchitecture", ["highbank"])])
           Example.pool "armhf/highbank" eq_refl eq_refl eq_refl).
Defined.

(** ** Bulk handlers: the two validations *)

Lemma NoDup_fmap_eq {A B} (f : A → B) (l : list A) (x y : A) :
  NoDup (f <$> l) → x ∈ l → y ∈ l → f x = f y → x = y.
Proof.
  induction l as [|a l IH]; intros Hnd Hx Hy Hf; [by inversion Hx|].
  rewrite fmap_cons, NoDup_cons in Hnd. destruct Hnd as [Hnotin Hnd].
  apply elem_of_cons in Hx as [->|Hx]; apply elem_of_cons in Hy as [->|Hy];
    try done.
  - exfalso. apply Hnotin. rewrite Hf. by apply list_elem_of_fmap_2.
  - exfalso. apply Hnotin. rewrite <- Hf. by apply list_elem_of_fmap_2.
  - by apply IH.
Qed.

Lemma NoDup_fmap_filter {A B} (f : A → B) (P : A → Prop)
    `{∀ x, Decision (P x)} (l : list A) :
  NoDup (f <$> l) → NoDup (f <$> filter P l).
Proof.
  intros Hnd. eapply sublist_NoDup; [done|].
  apply fmap_sublist, sublist_filter.
Qed.

Lemma filter_ext_elem_of {A} (P Q : A → Prop) `{∀ x, Decision (P x)}
    `{∀ x, Decision (Q x)} (l : list A) :
  (∀ x, x ∈ l → P x ↔ Q x) → filter P l = filter Q l.
Proof.
  induction l as [|a l IH]; intros Hext; [done|].
  rewrite !filter_cons.
  rewrite IH by (intros x Hx; apply Hext; by right).
  destruct (decide (P a)) as [Hp|Hp], (decide (Q a)) as [Hq|Hq]; try done.
  - destruct Hq. apply Hext; [by left|done].
  - destruct Hp. apply Hext; [by left|done].
Qed.

Section validations.
Context `{Collaborators}.

(** The identifiers that [_check_system_ids_exist] reports are the
    requested identifiers that no row carries. *)
Lemma elem_of_unknown_ids (system_ids : gset string) (db : DB) (i : string) :
  i ∈ system_ids
      ∖ list_to_set
          (Node.system_id <$>
             filter (λ row, Node.system_id row ∈ system_ids) db)
  ↔ i ∈ system_ids ∧ i ∉ Node.system_id <$> db.
Proof.
  rewrite elem_of_difference, elem_of_list_to_set, !list_elem_of_fmap.
  setoid_rewrite list_elem_of_filter. split.
  - intros [Hi Hnot]. split; [done|]. intros (row & -> & Hrow).
    apply Hnot. by exists row.
  - intros [Hi Hnot]. split; [done|]. intros (row & -> & _ & Hrow).
    apply Hnot. by exists row.
Qed.

Lemma check_system_ids_exist_unknown (system_ids : gset string) (db : DB) :
  (∃ i, i ∈ system_ids ∧ i ∉ Node.system_id <$> db) →
  NodesHandler._check_system_ids_exist system_ids db
  = (db, Raise (MAASAPIBadRequest
       ("Unknown node(s): "
        +:+ join ", "
              (elements
                 (system_ids
                    ∖ list_to_set
                        (Node.system_id <$>
                           filter (λ row, Node.system_id row ∈ system_ids)
                             db)))
        +:+ "."))).
Proof.
  intros (i & Hi & Hnot). unfold NodesHandler._check_system_ids_exist.
  rewrite bool_decide_false
    by (intros ->; by apply not_elem_of_empty in Hi).
  unfold filter_system_id_in. rewrite bind_query. cbv beta zeta.
  rewrite bool_decide_true; [done|].
  assert (size (system_ids
                  ∖ list_to_set
                      (Node.system_id <$>
                         filter (λ row, Node.system_id row ∈ system_ids) db))
          ≠ 0%nat); [|lia].
  apply size_non_empty_iff. intros Hempty.
  apply (not_elem_of_empty (C := gset string) i).
  rewrite <- Hempty. apply elem_of_unknown_ids. done.
Qed.

Lemma check_system_ids_exist_ok (system_ids : gset string) (db : DB) :
  (∀ i, i ∈ system_ids → i ∈ Node.system_id <$> db) →
  NodesHandler._check_system_ids_exist system_ids db = (db, Return tt).
Proof.
  intros Hall. unfold NodesHandler._check_system_ids_exist.
  case_bool_decide; [done|].
  unfold filter_system_id_in. rewrite bind_query. cbv beta zeta.
  rewrite bool_decide_false; [done|].
  assert (size (system_ids
                  ∖ list_to_set
                      (Node.system_id <$>
                         filter (λ row, Node.system_id row ∈ system_ids) db))
          = 0%nat) as ->; [|lia].
  apply size_empty_iff. intros i. rewrite elem_of_unknown_ids.
  split; [|by intros ?%not_elem_of_empty].
  intros [Hi Hnot]. destruct Hnot. by apply Hall.
Qed.

(** The identifiers that the permission check reports are the requested
    identifiers of rows that the user lacks the permission on. *)
Lemma elem_of_forbidden_ids (user : User) (perm : NODE_PERMISSION.t)
    (system_ids : gset string) (db : DB) (i : string) :
  NoDup (Node.system_id <$> db) →
  (∀ i, i ∈ system_ids → i ∈ Node.system_id <$> db) →
  i ∈ system_ids
      ∖ list_to_set
          (Node.system_id <$>
             filter (λ row, has_perm user perm row
                            ∧ Node.system_id row ∈ system_ids) db)
  ↔ ∃ row, row ∈ db ∧ Node.system_id row = i ∧ i ∈ system_ids
           ∧ has_perm user perm row = false.
Proof.
  intros Hnd Hall.
  rewrite elem_of_difference, elem_of_list_to_set, list_elem_of_fmap.
  setoid_rewrite list_elem_of_filter. split.
  - intros [Hi Hnot]. pose proof (Hall i Hi) as Hex.
    apply list_elem_of_fmap in Hex as (row & -> & Hrow).
    exists row. repeat split; try done.
    destruct (has_perm user perm row) eqn:Hperm; [|done].
    destruct Hnot. exists row. rewrite Hperm. done.
  - intros (row & Hrow & <- & Hi & Hperm). split; [done|].
    intros (row' & Heq & (Hperm' & _) & Hrow').
    assert (row = row') as <- by (by eapply NoDup_fmap_eq).
    rewrite Hperm in Hperm'. done.
Qed.

Lemma get_nodes_forbidden (user : User) (perm : NODE_PERMISSION.t)
    (system_ids : gset string) (db : DB) :
  NoDup (Node.system_id <$> db) →
  (∀ i, i ∈ system_ids → i ∈ Node.system_id <$> db) →
  (∃ row, row ∈ db ∧ Node.system_id row ∈ system_ids
          ∧ has_perm user perm row = false) →
  (length (filter (λ row, has_perm user perm row
                          ∧ Node.system_id row ∈ system_ids) db)
   < size system_ids)%nat.
Proof.
  intros Hnd Hall (row & Hrow & Hi & Hperm).
  rewrite <- (length_fmap Node.system_id).
  rewrite <- (size_list_to_set (C := gset string))
    by by apply NoDup_fmap_filter.
  apply subset_size. split.
  - intros i Hin. apply elem_of_list_to_set, list_elem_of_fmap in Hin
      as (r & -> & ([_ Hr] & _)%list_elem_of_filter). apply Hr.
  - intros Hsub. specialize (Hsub _ Hi).
    apply elem_of_list_to_set, list_elem_of_fmap in Hsub
      as (r & Heq & ([Hp _] & Hr)%list_elem_of_filter).
    assert (row = r) as <- by (by eapply NoDup_fmap_eq).
    rewrite Hperm in Hp. done.
Qed.

Lemma get_nodes_permitted (user : User) (perm : NODE_PERMISSION.t)
    (system_ids : gset string) (db : DB) :
  NoDup (Node.system_id <$> db) →
  (∀ i, i ∈ system_ids → i ∈ Node.system_id <$> db) →
  (∀ row, row ∈ db → Node.system_id row ∈ system_ids →
          has_perm user perm row = true) →
  filter (λ row, has_perm user perm row
                 ∧ Node.system_id row ∈ system_ids) db
  = filter (λ row, Node.system_id row ∈ system_ids) db
  ∧ ¬ (length (filter (λ row, Node.system_id row ∈ system_ids) db)
       < size system_ids)%nat.
Proof.
  intros Hnd Hall Hperm. split.
  - apply filter_ext_elem_of. intros row Hrow. split; [by intros [_ ?]|].
    intros Hin. split; [|done]. by rewrite Hperm.
  - rewrite <- (length_fmap Node.system_id).
    rewrite <- (size_list_to_set (C := gset string))
      by by apply NoDup_fmap_filter.
    assert (list_to_set
              (Node.system_id <$>
                 filter (λ row, Node.system_id row ∈ system_ids) db)
            = system_ids) as ->; [|lia].
    apply set_eq. intros i.
    rewrite elem_of_list_to_set, list_elem_of_fmap.
    setoid_rewrite list_elem_of_filter. split.
    + by intros (row & -> & Hin & _).
    + intros Hi. pose proof (Hall i Hi) as Hex.
      apply list_elem_of_fmap in Hex as (row & -> & Hrow). by exists row.
Qed.
End validations.

(** ** Bulk release *)

Lemma append_empty (s1 s2 : string) : s1 +:+ s2 = "" → s1 = "" ∧ s2 = "".
Proof. destruct s1; simpl; [done|discriminate]. Qed.

Lemma join_empty (sep : string) (xs : list string) :
  Forall (λ x, x ≠ "") xs → join sep xs = "" → xs = [].
Proof.
  intros Hne Hjoin. destruct xs as [|x [|y rest]]; [done|..].
  - apply Forall_cons in Hne as [Hx _]. simpl in Hjoin. done.
  - apply Forall_cons in Hne as [Hx _]. simpl in Hjoin.
    apply append_empty in Hjoin as [? _]. done.
Qed.

Section bulk_release.
Context `{Collaborators}.

Lemma rewrite_rows_system_id (change : Node.t → Node.t) done row :
  (∀ node, Node.system_id (change node) = Node.system_id node) →
  Node.system_id (rewrite_rows change done row) = Node.system_id row.
Proof. intros Hid. unfold rewrite_rows. by case_bool_decide. Qed.

Lemma rewrite_rows_nil (change : Node.t → Node.t) (db : DB) :
  rewrite_rows change [] <$> db = db.
Proof.
  rewrite <- (list_fmap_id db) at 2. apply list_fmap_ext. intros _ row _.
  unfold rewrite_rows. rewrite bool_decide_false; [done|].
  apply not_elem_of_nil.
Qed.

(** Saving the changed snapshot of a row changes that row and no other. *)
Lemma save_rewrite_rows (change : Node.t → Node.t) done (db : DB) node :
  (∀ node, Node.system_id (change node) = Node.system_id node) →
  NoDup (Node.system_id <$> db) →
  node ∈ db →
  save node (change node) (rewrite_rows change done <$> db)
  = (rewrite_rows change (done ++ [Node.system_id node]) <$> db, Return tt).
Proof.
  intros Hid Hnd Hnode. unfold save, update. f_equal.
  rewrite <- list_fmap_compose. apply Forall_fmap_ext, Forall_forall.
  intros row Hrow. simpl. rewrite rewrite_rows_system_id by done.
  unfold rewrite_rows. case_bool_decide as Heq.
  - assert (row = node) as -> by (by eapply NoDup_fmap_eq).
    rewrite (bool_decide_true (_ ∈ done ++ _)); [done|].
    apply elem_of_app. right. by left.
  - rewrite (bool_decide_ext (_ ∈ done ++ _) (Node.system_id row ∈ done));
      [done|].
    rewrite elem_of_app, list_elem_of_singleton. split; [|by left].
    by intros [?|?].
Qed.

Lemma release_loop_spec (db : DB) nodes done released failed :
  NoDup (Node.system_id <$> db) →
  (∀ node, node ∈ nodes → node ∈ db) →
  NodesHandler.release_loop nodes released failed
    (rewrite_rows release_or_erase done <$> db)
  = (rewrite_rows release_or_erase
       (done ++ (Node.system_id <$> filter releasable_now nodes)) <$> db,
     Return (released ++ (Node.system_id <$> filter releasable_now nodes),
             failed ++ (failure_entry <$> filter not_releasable nodes))).
Proof.
  intros Hnd. revert done released failed.
  induction nodes as [|node rest IH]; intros done released failed Hin.
  - simpl. by rewrite !app_nil_r.
  - assert (∀ n, n ∈ rest → n ∈ db) as Hrest by (intros; apply Hin; by right).
    assert (node ∈ db) as Hnode by (apply Hin; by left).
    simpl. case_bool_decide as Hready; [|case_bool_decide as Hrel].
    + rewrite (filter_cons_False releasable_now)
        by (intros [? _]; done).
      rewrite (filter_cons_False not_releasable)
        by (intros [? _]; done).
      by apply IH.
    + rewrite (filter_cons_True releasable_now) by done.
      rewrite (filter_cons_False not_releasable)
        by (intros [_ ?]; done).
      erewrite bind_return
        by (apply save_rewrite_rows;
            [apply release_or_erase_system_id|done|done]).
      rewrite IH by done. rewrite fmap_cons, <- !app_assoc. done.
    + rewrite (filter_cons_False releasable_now)
        by (intros [_ ?]; done).
      rewrite (filter_cons_True not_releasable) by done.
      rewrite IH by done. rewrite fmap_cons, <- !app_assoc. done.
Qed.

Lemma any_failure_entries (nodes : list Node.t) :
  NodesHandler.any (failure_entry <$> nodes)
  = match nodes with [] => false | _ :: _ => true end.
Proof.
  destruct nodes as [|node rest]; [done|].
  unfold NodesHandler.any. simpl. apply orb_true_iff. left.
  apply negb_true_iff, String.eqb_neq. unfold failure_entry.
  intros [_ [? _]%append_empty]%append_empty. done.
Qed.

(** Among the rows of a table without duplicate identifiers, the rows whose
    identifier is that of a released node are the requested releasable
    rows. *)
Lemma released_rows (system_ids : gset string) (db : DB) row :
  NoDup (Node.system_id <$> db) →
  row ∈ db →
  Node.system_id row
    ∈ Node.system_id <$>
        filter releasable_now
          (filter (λ row, Node.system_id row ∈ system_ids) db)
  ↔ Node.system_id row ∈ system_ids ∧ releasable_now row.
Proof.
  intros Hnd Hrow. rewrite list_elem_of_fmap.
  setoid_rewrite list_elem_of_filter. setoid_rewrite list_elem_of_filter.
  split.
  - intros (node & Heq & Hrel & Hin & Hnode).
    assert (row = node) as <- by (by eapply NoDup_fmap_eq). done.
  - intros [Hin Hrel]. by exists row.
Qed.
End bulk_release.

Section bulk_release_claims.
Context `{Collaborators}.

(** C3.  A bulk release that names an identifier that no row carries raises
    MAASAPIBadRequest, its message lists exactly the unknown identifiers,
    and the database is left as it was.  When every identifier exists and
    the user lacks the EDIT permission on some requested node, it raises
    PermissionDenied, its message lists exactly the identifiers of those
    nodes, and the database is left as it was. *)
Theorem release_validates_before_releasing (request : Request) (db : DB) :
  ((∃ i, i ∈ requested_ids request ∧ i ∉ Node.system_id <$> db) →
   ∃ unknown : list string,
     NodesHandler.release request db
     = (db, Raise (MAASAPIBadRequest
          ("Unknown node(s): " +:+ join ", " unknown +:+ ".")))
     ∧ NoDup unknown
     ∧ ∀ i, i ∈ unknown
            ↔ i ∈ requested_ids request ∧ i ∉ Node.system_id <$> db)
  ∧ (NoDup (Node.system_id <$> db) →
     (∀ i, i ∈ requested_ids request → i ∈ Node.system_id <$> db) →
     (∃ row, row ∈ db ∧ Node.system_id row ∈ requested_ids request
             ∧ has_perm (user request) NODE_PERMISSION.EDIT row = false) →
     ∃ forbidden : list string,
       NodesHandler.release request db
       = (db, Raise (PermissionDenied
            ("You don't have the required permission to release the "
             +:+ "following node(s): " +:+ join ", " forbidden +:+ ".")))
       ∧ NoDup forbidden
       ∧ ∀ i, i ∈ forbidden
              ↔ ∃ row, row ∈ db ∧ Node.system_id row = i
                       ∧ i ∈ requested_ids request
                       ∧ has_perm (user request) NODE_PERMISSION.EDIT row
                         = false).
Proof.
  split.
  - intros Hunknown. eexists. split; [|split].
    + unfold NodesHandler.release. fold (requested_ids request).
      erewrite bind_raise by by apply check_system_ids_exist_unknown.
      reflexivity.
    + apply NoDup_elements.
    + intros i. rewrite elem_of_elements. apply elem_of_unknown_ids.
  - intros Hnd Hall Hforbidden. eexists. split; [|split].
    + unfold NodesHandler.release. fold (requested_ids request).
      erewrite bind_return by by apply check_system_ids_exist_ok.
      unfold get_nodes. rewrite bind_query. cbv beta.
      rewrite bool_decide_true by by apply get_nodes_forbidden.
      reflexivity.
    + apply NoDup_elements.
    + intros i. rewrite elem_of_elements. by apply elem_of_forbidden_ids.
Qed.

(** C4.  When every requested identifier exists and the user may edit every
    requested node, the bulk release handles each requested node by its own
    status: a READY node is left as it is, a releasable node is released,
    and a node in any other status is reported.  With at least one reported
    node the call raises NodeStateViolation naming every reported node with
    its status, and the releases made by the same call stay in the
    database; otherwise the call returns the identifiers of the released
    nodes. *)
Theorem release_reports_failures_keeps_releases (request : Request)
    (db : DB) :
  NoDup (Node.system_id <$> db) →
  (∀ i, i ∈ requested_ids request → i ∈ Node.system_id <$> db) →
  (∀ row, row ∈ db → Node.system_id row ∈ requested_ids request →
          has_perm (user request) NODE_PERMISSION.EDIT row = true) →
  let nodes :=
    filter (λ row, Node.system_id row ∈ requested_ids request) db in
  let db' :=
    (λ row, if bool_decide (Node.system_id row ∈ requested_ids request
                            ∧ releasable_now row)
            then release_or_erase row else row) <$> db in
  NodesHandler.release request db
  = (db',
     match filter not_releasable nodes with
     | [] => Return (Node.system_id <$> filter releasable_now nodes)
     | _ :: _ =>
         Raise (NodeStateViolation
           ("Node(s) cannot be released in their current state: "
            +:+ join ", " (failure_entry <$> filter not_releasable nodes)
            +:+ "."))
     end).
Proof.
  intros Hnd Hall Hperm nodes db'.
  destruct (get_nodes_permitted _ _ _ _ Hnd Hall Hperm) as [Hnodes Hlen].
  unfold NodesHandler.release. fold (requested_ids request).
  erewrite bind_return by by apply check_system_ids_exist_ok.
  unfold get_nodes. rewrite bind_query. cbv beta. rewrite Hnodes.
  rewrite bool_decide_false by done. fold nodes.
  rewrite <- (rewrite_rows_nil release_or_erase db) at 1.
  erewrite bind_return; last first.
  { apply release_loop_spec; [done|].
    intros node Hnode. by apply list_elem_of_filter in Hnode as [_ ?]. }
  simpl. rewrite any_failure_entries.
  assert (rewrite_rows release_or_erase
            (Node.system_id <$> filter releasable_now nodes) <$> db = db')
    as ->.
  { apply Forall_fmap_ext, Forall_forall. intros row Hrow.
    unfold rewrite_rows. apply (f_equal (λ b : bool, if b then _ else _)).
    apply bool_decide_ext. by apply released_rows. }
  by destruct (filter not_releasable nodes).
Qed.
End bulk_release_claims.

Lemma release_validates_before_releasing_witness :
  let request :=
    Example.request_of Example.alice [("nodes", ["a"; "zz"; "d"])] in
  let request' :=
    Example.request_of Example.alice [("nodes", ["a"; "c"; "d"])] in
  (∃ unknown : list string,
     @NodesHandler.release _ Example.collaborators request Example.pool
     = (Example.pool, Raise (MAASAPIBadRequest
          ("Unknown node(s): " +:+ join ", " unknown +:+ ".")))
     ∧ NoDup unknown
     ∧ ∀ i, i ∈ unknown
            ↔ i ∈ requested_ids request
              ∧ i ∉ Node.system_id <$> Example.pool)
  ∧ (∃ forbidden : list string,
       @NodesHandler.release _ Example.collaborators request' Example.pool
       = (Example.pool, Raise (PermissionDenied
            ("You don't have the required permission to release the "
             +:+ "following node(s): " +:+ join ", " forbidden +:+ ".")))
       ∧ NoDup forbidden
       ∧ ∀ i, i ∈ forbidden
              ↔ ∃ row, row ∈ Example.pool ∧ Node.system_id row = i
                       ∧ i ∈ requested_ids request'
                       ∧ Example.permits Example.alice NODE_PERMISSION.EDIT
                           row = false).
Proof.
  intros request request'. split.
  - refine (proj1 (@release_validates_before_releasing _
                     Example.collaborators request Example.pool) _).
    exists "zz". split; by_computation.
  - refine (proj2 (@release_validates_before_releasing _
                     Example.collaborators request' Example.pool) _ _ _).
    + by_computation.
    + change (set_Forall (λ i, i ∈ Node.system_id <$> Example.pool)
                (requested_ids request')).
      by_computation.
    + exists (Example.machine "d" "armhf/highbank" 1024
                (@NODE_STATUS.DEPLOYED spec_statuses) (Some Example.root)).
      split; [|split]; [|by_computation|reflexivity].
      do 3 right. left.
Defined.

Lemma release_reports_failures_keeps_releases_witness :
  let request :=
    Example.request_of Example.root [("nodes", ["a"; "b"; "c"; "d"])] in
  let nodes :=
    filter (λ row, Node.system_id row ∈ requested_ids request)
      Example.pool in
  @NodesHandler.release _ Example.collaborators request Example.pool
  = ((λ row, if bool_decide (Node.system_id row ∈ requested_ids request
                             ∧ @releasable_now _ Example.collaborators row)
             then Example.release_node row else row) <$> Example.pool,
     match filter (@not_releasable _ Example.collaborators) nodes with
     | [] =>
         Return (Node.system_id <$>
                   filter (@releasable_now _ Example.collaborators) nodes)
     | _ :: _ =>
         Raise (NodeStateViolation
           ("Node(s) cannot be released in their current state: "
            +:+ join ", "
                  (@failure_entry _ Example.collaborators <$>
                     filter (@not_releasable _ Example.collaborators) nodes)
            +:+ "."))
     end).
Proof.
  intros request nodes.
  refine (@release_reports_failures_keeps_releases _ Example.collaborators
            request Example.pool _ _ _).
  - by_computation.
  - change (set_Forall (λ i, i ∈ Node.system_id <$> Example.pool)
              (requested_ids request)).
    by_computation.
  - intros row _ _. reflexivity.
Defined.

(** ** Bulk accept *)

Section bulk_accept.
Context `{Collaborators}.

Lemma accept_loop_spec (user : User) (db : DB) nodes done :
  NoDup (Node.system_id <$> db) →
  (∀ node, node ∈ nodes → node ∈ db) →
  NODE_STATUS.NEW ∉ ACCEPTED_STATUSES →
  (∀ node, node ∈ nodes →
     Node.status node = NODE_STATUS.NEW
     ∨ Node.status node ∈ ACCEPTED_STATUSES) →
  NodesHandler.for_each (λ node, accept_enlistment node user) nodes
    (rewrite_rows (Node.set_status NODE_STATUS.COMMISSIONING) done <$> db)
  = (rewrite_rows (Node.set_status NODE_STATUS.COMMISSIONING)
       (done ++ (Node.system_id <$>
                   filter (λ node, Node.status node = NODE_STATUS.NEW) nodes))
       <$> db,
     Return ((λ node, if bool_decide (Node.status node = NODE_STATUS.NEW)
                      then Some (Node.set_status NODE_STATUS.COMMISSIONING
                                   node)
                      else None) <$> nodes)).
Proof.
  intros Hnd Hin Hnew. revert done Hin.
  induction nodes as [|node rest IH]; intros done Hin Hst.
  - simpl. by rewrite app_nil_r.
  - assert (∀ n, n ∈ rest → n ∈ db) as Hrest by (intros; apply Hin; by right).
    assert (node ∈ db) as Hnode by (apply Hin; by left).
    rewrite fmap_cons. cbn [NodesHandler.for_each].
    destruct (Hst node) as [Hs|Hs]; [by left|..].
    + rewrite (filter_cons_True (λ n, Node.status n = NODE_STATUS.NEW))
        by done.
      rewrite (bool_decide_true (Node.status node = _)) by done.
      erewrite bind_return; last first.
      { unfold accept_enlistment.
        rewrite bool_decide_false by (by rewrite Hs).
        rewrite bool_decide_false by (intros Hne; by apply Hne).
        erewrite bind_return by by apply save_rewrite_rows.
        reflexivity. }
      erewrite bind_return
        by (apply IH; [done|intros; apply Hst; by right]).
      rewrite fmap_cons, <- !app_assoc. done.
    + assert (Node.status node ≠ NODE_STATUS.NEW) as Hne
        by (intros Heq; by rewrite Heq in Hs).
      rewrite (filter_cons_False (λ n, Node.status n = NODE_STATUS.NEW))
        by done.
      rewrite (bool_decide_false (Node.status node = _)) by done.
      erewrite bind_return; last first.
      { unfold accept_enlistment. rewrite bool_decide_true by done.
        reflexivity. }
      erewrite bind_return
        by (apply IH; [done|intros; apply Hst; by right]).
      done.
Qed.

Lemma omap_accepted (nodes : list Node.t) :
  omap id ((λ node, if bool_decide (Node.status node = NODE_STATUS.NEW)
                    then Some (Node.set_status NODE_STATUS.COMMISSIONING node)
                    else None) <$> nodes)
  = Node.set_status NODE_STATUS.COMMISSIONING <$>
      filter (λ node, Node.status node = NODE_STATUS.NEW) nodes.
Proof.
  induction nodes as [|node rest IH]; [done|].
  destruct (decide (Node.status node = NODE_STATUS.NEW)) as [Hs|Hs].
  - rewrite filter_cons_True, !fmap_cons, bool_decide_true, <- IH by done.
    reflexivity.
  - rewrite filter_cons_False, !fmap_cons, bool_decide_false, <- IH by done.
    reflexivity.
Qed.

Lemma accepted_rows (system_ids : gset string) (db : DB) row :
  NoDup (Node.system_id <$> db) →
  row ∈ db →
  Node.system_id row
    ∈ Node.system_id <$>
        filter (λ node, Node.status node = NODE_STATUS.NEW)
          (filter (λ row, Node.system_id row ∈ system_ids) db)
  ↔ Node.system_id row ∈ system_ids ∧ Node.status row = NODE_STATUS.NEW.
Proof.
  intros Hnd Hrow. rewrite list_elem_of_fmap.
  setoid_rewrite list_elem_of_filter. setoid_rewrite list_elem_of_filter.
  split.
  - intros (node & Heq & Hrel & Hin & Hnode).
    assert (row = node) as <- by (by eapply NoDup_fmap_eq). done.
  - intros [Hin Hrel]. by exists row.
Qed.

(** A list comprehension that raises at one element raises there, in the
    table that the elements before it have left. *)
Lemma for_each_raise {A B} (f : A → M B) (before : list A) (x : A)
    (after : list A) (db db1 db2 : DB) (ys : list B) (e : exn) :
  NodesHandler.for_each f before db = (db1, Return ys) →
  f x db1 = (db2, Raise e) →
  NodesHandler.for_each f (before ++ x :: after) db = (db2, Raise e).
Proof.
  revert db ys. induction before as [|a before IH]; intros db ys Hbefore Hx.
  - simpl in Hbefore. injection Hbefore as -> _. simpl.
    by erewrite bind_raise.
  - simpl in *. unfold bind in Hbefore |- *.
    destruct (f a db) as [dba [y|ea]]; [|done].
    destruct (NodesHandler.for_each f before dba) as [dbb [ys'|eb]] eqn:Hrun;
      [|done].
    injection Hbefore as -> _.
    by rewrite (IH _ _ Hrun Hx).
Qed.

(** C9.  For a bulk accept over existing identifiers of nodes that the user
    may administer.  Accepting a node whose status is an already accepted
    one returns no change (None) and raises nothing, on any table.  When
    each requested node is NEW or already accepted, the call returns: an
    already accepted node is left as it is and is not in the returned
    collection, and the returned collection holds the nodes that were NEW,
    now COMMISSIONING, which are exactly the requested nodes whose status
    the call changed.  When a requested node is neither NEW nor already
    accepted, the call raises NodeStateViolation at the first such node in
    the order of the table: the NEW nodes before it are COMMISSIONING in the
    table at the raise, every other row is as it was. *)
Theorem accept_skips_accepted_nodes (request : Request) (db : DB) :
  NoDup (Node.system_id <$> db) →
  (∀ i, i ∈ requested_ids request → i ∈ Node.system_id <$> db) →
  (∀ row, row ∈ db → Node.system_id row ∈ requested_ids request →
          has_perm (user request) NODE_PERMISSION.ADMIN row = true) →
  NODE_STATUS.NEW ∉ ACCEPTED_STATUSES →
  NODE_STATUS.NEW ≠ NODE_STATUS.COMMISSIONING →
  let nodes :=
    filter (λ row, Node.system_id row ∈ requested_ids request) db in
  let acceptable node :=
    Node.status node = NODE_STATUS.NEW
    ∨ Node.status node ∈ ACCEPTED_STATUSES in
  let after row :=
    if bool_decide (Node.system_id row ∈ requested_ids request
                    ∧ Node.status row = NODE_STATUS.NEW)
    then Node.set_status NODE_STATUS.COMMISSIONING row else row in
  let returned :=
    Node.set_status NODE_STATUS.COMMISSIONING <$>
      filter (λ node, Node.status node = NODE_STATUS.NEW) nodes in
  (∀ node table,
     Node.status node ∈ ACCEPTED_STATUSES →
     accept_enlistment node (user request) table = (table, Return None))
  ∧ ((∀ node, node ∈ nodes → acceptable node) →
     NodesHandler.accept request db = (after <$> db, Return returned)
     ∧ (∀ row, row ∈ db → Node.system_id row ∈ requested_ids request →
          Node.status row ∈ ACCEPTED_STATUSES →
          after row = row ∧ Node.system_id row ∉ Node.system_id <$> returned)
     ∧ (∀ row, row ∈ db →
          Node.system_id row ∈ Node.system_id <$> returned
          ↔ Node.system_id row ∈ requested_ids request
            ∧ Node.status (after row) ≠ Node.status row))
  ∧ (∀ before bad rest,
       nodes = before ++ bad :: rest →
       (∀ node, node ∈ before → acceptable node) →
       ¬ acceptable bad →
       ∃ msg,
         NodesHandler.accept request db
         = ((λ row,
               if bool_decide
                    (Node.system_id row
                       ∈ Node.system_id <$>
                           filter (λ node, Node.status node = NODE_STATUS.NEW)
                             before)
               then Node.set_status NODE_STATUS.COMMISSIONING row else row)
              <$> db,
            Raise (NodeStateViolation msg))).
Proof.
  intros Hnd Hall Hperm Hnew Hcomm nodes acceptable after returned.
  destruct (get_nodes_permitted _ _ _ _ Hnd Hall Hperm) as [Hnodes Hlen].
  assert (∀ row, row ∈ db →
            Node.system_id row ∈ Node.system_id <$> returned
            ↔ Node.system_id row ∈ requested_ids request
              ∧ Node.status row = NODE_STATUS.NEW) as Hret.
  { intros row Hrow. unfold returned.
    rewrite <- list_fmap_compose.
    rewrite (list_fmap_ext _ Node.system_id) by done.
    by apply accepted_rows. }
  split; [|split].
  - intros node table Hacc. unfold accept_enlistment.
    by rewrite bool_decide_true.
  - intros Hst. split; [|split].
    + unfold NodesHandler.accept. fold (requested_ids request).
      erewrite bind_return by by apply check_system_ids_exist_ok.
      unfold get_nodes. rewrite bind_query. cbv beta. rewrite Hnodes.
      rewrite bool_decide_false by done. fold nodes.
      pose proof (accept_loop_spec (user request) db nodes [] Hnd) as Hloop.
      rewrite rewrite_rows_nil in Hloop.
      erewrite bind_return; last first.
      { apply Hloop; [|done|done].
        intros node Hnode. by apply list_elem_of_filter in Hnode as [_ ?]. }
      unfold ret. rewrite omap_accepted. f_equal. simpl.
      apply Forall_fmap_ext, Forall_forall. intros row Hrow.
      unfold rewrite_rows, after.
      apply (f_equal (λ b : bool, if b then _ else _)).
      apply bool_decide_ext. by apply accepted_rows.
    + intros row Hrow Hid Hacc.
      assert (Node.status row ≠ NODE_STATUS.NEW) as Hne
        by (intros Heq; by rewrite Heq in Hacc).
      split.
      * unfold after. rewrite bool_decide_false; [done|]. by intros [_ ?].
      * rewrite Hret by done. by intros [_ ?].
    + intros row Hrow. rewrite Hret by done. unfold after.
      case_bool_decide as Hdec; simpl.
      * destruct Hdec as [Hid Hs]. rewrite Hs. split; [done|]. by intros _.
      * split; [done|]. intros [_ ?]. done.
  - intros before bad rest Hsplit Hbefore Hbad.
    assert (∀ node, node ∈ before → node ∈ db) as Hin.
    { intros node Hnode.
      assert (node ∈ nodes) as Hmem
        by (rewrite Hsplit; apply elem_of_app; by left).
      by apply list_elem_of_filter in Hmem as [_ ?]. }
    eexists. unfold NodesHandler.accept. fold (requested_ids request).
    erewrite bind_return by by apply check_system_ids_exist_ok.
    unfold get_nodes. rewrite bind_query. cbv beta. rewrite Hnodes.
    rewrite bool_decide_false by done. fold nodes. rewrite Hsplit.
    erewrite bind_raise; [reflexivity|].
    pose proof (accept_loop_spec (user request) db before [] Hnd Hin Hnew
                  Hbefore) as Hloop.
    rewrite rewrite_rows_nil in Hloop.
    eapply for_each_raise; [exact Hloop|].
    unfold accept_enlistment.
    rewrite bool_decide_false by (intros Hacc; apply Hbad; by right).
    rewrite bool_decide_true by (intros Hs; apply Hbad; by left).
    reflexivity.
Qed.
End bulk_accept.

Lemma accept_skips_accepted_nodes_witness :
  let request := Example.request_of Example.root [("nodes", ["b"; "c"])] in
  let request' := Example.request_of Example.root [("nodes", ["b"; "d"])] in
  let accepted :=
    Example.machine "b" "amd64/generic" 2048
      (@NODE_STATUS.COMMISSIONING spec_statuses) None in
  (@accept_enlistment _ Example.collaborators
     (Example.machine "c" "i386/generic" 1024 3 None) Example.root
     Example.pool
   = (Example.pool, Return None))
  ∧ (@NodesHandler.accept _ Example.collaborators request Example.pool
     = ((λ row, if bool_decide (Node.system_id row ∈ requested_ids request
                                ∧ Node.status row = 0)
                then Node.set_status 1 row else row) <$> Example.pool,
        Return [accepted]))
  ∧ (∃ msg,
       @NodesHandler.accept _ Example.collaborators request' Example.pool
       = ((λ row, if bool_decide (Node.system_id row ∈ ["b"])
                  then Node.set_status 1 row else row) <$> Example.pool,
          Raise (NodeStateViolation msg))).
Proof.
  intros request request' accepted.
  assert (NoDup (Node.system_id <$> Example.pool)) as Hnd by by_computation.
  assert (@NODE_STATUS.NEW spec_statuses
            ∉ @ACCEPTED_STATUSES _ Example.collaborators) as Hnew
    by by_computation.
  assert (@NODE_STATUS.NEW spec_statuses
            ≠ @NODE_STATUS.COMMISSIONING spec_statuses) as Hcomm
    by by_computation.
  assert (∀ i, i ∈ requested_ids request
               → i ∈ Node.system_id <$> Example.pool) as Hall.
  { change (set_Forall (λ i, i ∈ Node.system_id <$> Example.pool)
              (requested_ids request)).
    by_computation. }
  assert (∀ i, i ∈ requested_ids request'
               → i ∈ Node.system_id <$> Example.pool) as Hall'.
  { change (set_Forall (λ i, i ∈ Node.system_id <$> Example.pool)
              (requested_ids request')).
    by_computation. }
  pose proof (@accept_skips_accepted_nodes _ Example.collaborators
                request Example.pool Hnd Hall (λ _ _ _, eq_refl) Hnew Hcomm)
    as (Hskip & Hreturn & _).
  pose proof (@accept_skips_accepted_nodes _ Example.collaborators
                request' Example.pool Hnd Hall' (λ _ _ _, eq_refl) Hnew
                Hcomm)
    as (_ & _ & Hraise).
  split; [|split].
  - apply Hskip. by_computation.
  - apply Hreturn.
    apply (proj1 (Forall_forall
             (λ node, Node.status node = 0 ∨ Node.status node ∈ [1; 3])
             _)).
    by_computation.
  - apply (Hraise [Example.machine "b" "amd64/generic" 2048 0 None]
             (Example.machine "d" "armhf/highbank" 1024 7
                (Some Example.root))
             [] eq_refl).
    + intros node Hnode. left. apply list_elem_of_singleton in Hnode as ->.
      reflexivity.
    + intros [Hs|Hs]; [done|]. revert Hs. by_computation.
Defined.

(** A deployed node is no longer NEW, and accepting it together with a NEW
    node is refused: the call raises NodeStateViolation, after the NEW node
    has been accepted. *)
Lemma accept_refuses_deployed_node :
  let request := Example.request_of Example.root [("nodes", ["b"; "d"])] in
  let a := Example.machine "a" "amd64/generic" 2048 5 (Some Example.alice) in
  let b := Example.machine "b" "amd64/generic" 2048 0 None in
  let c := Example.machine "c" "i386/generic" 1024 3 None in
  let d := Example.machine "d" "armhf/highbank" 1024 7 (Some Example.root) in
  Example.pool = [a; b; c; d]
  ∧ requested_ids request ⊆ list_to_set (Node.system_id <$> Example.pool)
  ∧ Forall (λ row,
      @has_perm _ Example.collaborators (user request) NODE_PERMISSION.ADMIN
        row = true) Example.pool
  ∧ Node.system_id d ∈ requested_ids request
  ∧ Node.status d ≠ @NODE_STATUS.NEW spec_statuses
  ∧ @NodesHandler.accept _ Example.collaborators request Example.pool
    = ([a; Node.set_status (@NODE_STATUS.COMMISSIONING spec_statuses) b;
        c; d],
       Raise (NodeStateViolation
         "Cannot accept node enlistment: node d is in state Deployed.")).
Proof.
  intros request a b c d.
  split; [reflexivity|]. split; [by_computation|]. split; [by_computation|].
  split; [by_computation|]. split; [by_computation|].
  vm_compute. reflexivity.
Qed.

(** ** Acquisition *)


Lemma filter_none {A} (P : A → Prop) `{∀ x, Decision (P x)} (l : list A) :
  Forall (λ y, ¬ P y) l → filter P l = [].
Proof.
  induction 1 as [|a l Ha _ IH]; [done|].
  by rewrite filter_cons_False.
Qed.

Lemma describe_constraint_nonempty (field : string) (values : list string) :
  Forall (λ x, x ≠ "") (AcquireNodeForm.describe_constraint field values).
Proof.
  destruct values as [|v vs]; [by constructor|].
  repeat constructor. intros [_ [? _]%append_empty]%append_empty. done.
Qed.

Lemma describe_constraint_nil (field : string) (values : list string) :
  AcquireNodeForm.describe_constraint field values = [] → values = [].
Proof. by destruct values. Qed.

Lemma option_list_nil {A} (v : option A) : option_list v = [] → v = None.
Proof. by destruct v. Qed.

(** The rendering of a constraint set is empty exactly when the set gives
    no constraint. *)
Lemma describe_constraints_empty (cs : ConstraintSet) :
  AcquireNodeForm.describe_constraints (Some cs) = "" ↔ cs = no_constraints.
Proof.
  split; [|by intros ->].
  intros Hjoin. apply join_empty in Hjoin.
  - repeat (apply app_eq_nil in Hjoin as [?%describe_constraint_nil Hjoin]).
    apply describe_constraint_nil in Hjoin.
    repeat match goal with
           | Hnil : option_list _ = [] |- _ => apply option_list_nil in Hnil
           | Hnil : _ <$> _ = [] |- _ => apply fmap_nil_inv in Hnil
           | Hnone : _ <$> _ = None |- _ => apply fmap_None in Hnone
           end.
    destruct cs. simpl in *. by subst.
  - repeat (apply Forall_app; split); apply describe_constraint_nonempty.
Qed.

Section acquisition.
Context `{Collaborators}.

Lemma acquire_none (request : Request) (db : DB) :
  AcquireNodeForm.is_valid (clean_constraints (data request)) = true →
  candidates request db = [] →
  NodesHandler.acquire request db
  = (db, Raise (NodesNotAvailable
       (no_match_message
          (AcquireNodeForm.describe_constraints
             (clean_constraints (data request)))))).
Proof.
  intros Hvalid Hnone. unfold NodesHandler.acquire. rewrite Hvalid. simpl.
  unfold get_available_nodes_for_acquisition. rewrite bind_query.
  fold (candidates request db). by rewrite Hnone.
Qed.

Lemma acquire_some (request : Request) (db : DB) node rest :
  AcquireNodeForm.is_valid (clean_constraints (data request)) = true →
  candidates request db = node :: rest →
  NodesHandler.acquire request db
  = ((λ row, if bool_decide (Node.system_id row = Node.system_id node)
             then granted request node else row) <$> db,
     Return (granted request node)).
Proof.
  intros Hvalid Hsome. unfold NodesHandler.acquire. rewrite Hvalid. simpl.
  unfold get_available_nodes_for_acquisition. rewrite bind_query.
  fold (candidates request db). by rewrite Hsome.
Qed.

(** C5.  When the form of an acquire call is valid and no available node
    matches, the call raises NodesNotAvailable and the database is left as
    it was.  The message is 'No node available.' when the rendering of the
    constraints is empty and otherwise carries the rendering; the rendering
    is empty exactly when the request gives no constraint. *)
Theorem acquire_without_match (request : Request) (db : DB) :
  AcquireNodeForm.is_valid (clean_constraints (data request)) = true →
  candidates request db = [] →
  let form := clean_constraints (data request) in
  let constraints := AcquireNodeForm.describe_constraints form in
  NodesHandler.acquire request db
  = (db, Raise (NodesNotAvailable
       (if String.eqb constraints "" then "No node available."
        else "No available node matches constraints: " +:+ constraints)))
  ∧ (constraints = "" ↔ form = Some no_constraints).
Proof.
  intros Hvalid Hnone form constraints. split.
  - by apply acquire_none.
  - unfold constraints, form in *.
    destruct (clean_constraints (data request)) as [cs|]; [|done].
    rewrite describe_constraints_empty. split; [by intros ->|].
    by intros [= ->].
Qed.
End acquisition.

Lemma acquire_without_match_witness :
  let request :=
    Example.request_of Example.alice
      [("arch", ["armhf/highbank"]); ("mem", ["4096"])] in
  let constraints := "arch=armhf/highbank mem=4096" in
  @NodesHandler.acquire _ Example.collaborators request Example.registry
  = (Example.registry,
     Raise (NodesNotAvailable
       ("No available node matches constraints: " +:+ constraints)))
  ∧ (constraints = "" ↔ Example.clean (data request) = Some no_constraints).
Proof.
  intros request constraints.
  refine (@acquire_without_match _ Example.collaborators request
            Example.registry _ _); reflexivity.
Defined.

Section acquisition_order.
Context `{Collaborators}.




End acquisition_order.



(** * Further properties of the code *)

(** ** The coarse status view, once more *)

(** Folding a status that is already folded changes nothing: the coarse
    view of a node whose stored status is a coarse value is that value. *)
Theorem status_view_idempotent `{NODE_STATUS.t} (node : Node.t) :
  NodeHandler.status (Node.set_status (NodeHandler.status node) node)
  = NodeHandler.status node.
Proof.
  unfold NodeHandler.status at 2 3. case_bool_decide as Hin.
  - unfold NodeHandler.status. simpl. by case_bool_decide.
  - unfold NodeHandler.status. simpl. by rewrite bool_decide_false.
Qed.

(** ** Power parameters of a new node *)

Section power_parameters.
Context `{Collaborators}.


End power_parameters.


(** ** Creating a node, further *)

Lemma QueryDict_get_delitem (key : string) (d : QueryDict.t) :
  QueryDict.get key (QueryDict.delitem key d) = None.
Proof.
  unfold QueryDict.get, QueryDict.delitem. by rewrite lookup_delete_eq.
Qed.

Lemma occurs_true_nonempty (c : ascii) (s : string) :
  occurs c s = true → truthy (Some s) = true.
Proof. by destruct s. Qed.

Section creation_more.
Context `{Collaborators}.

Lemma create_node_architecture_other_keys (request : Request) (db : DB)
    (altered : QueryDict.t) (key : string) :
  (create_node_architecture request db).2 = Return altered →
  key ≠ "architecture" → key ≠ "subarchitecture" →
  altered !! key = data request !! key.
Proof.
  unfold create_node_architecture.
  destruct (truthy (QueryDict.get "architecture" (data request))
            && occurs "/" _);
    [|destruct (truthy (QueryDict.get "architecture" (data request)))];
    destruct (truthy (QueryDict.get "subarchitecture" (data request)));
    simpl; intros Heq Harch Hsub; simplify_eq; try done.
  - unfold QueryDict.delitem, QueryDict.setitem.
    by rewrite lookup_delete_ne, lookup_insert_ne.
  - unfold QueryDict.setitem. by rewrite lookup_insert_ne.
Qed.

(** The first part of [create_node] returns or raises its one error, in the
    table it was given. *)
Lemma create_node_architecture_cases (request : Request) (db : DB) :
  (∃ altered, create_node_architecture request db = (db, Return altered))
  ∨ create_node_architecture request db
    = (db, Raise (ValidationError
             "Subarchitecture cannot be specified twice.")).
Proof.
  unfold create_node_architecture.
  destruct (truthy (QueryDict.get "architecture" (data request))
            && occurs "/" _);
    [|destruct (truthy (QueryDict.get "architecture" (data request)))];
    destruct (truthy (QueryDict.get "subarchitecture" (data request)));
    simpl; eauto.
Qed.

(** The first part of [create_node] never touches the table.  It fails
    with one error only, and the data it hands on are the request data
    except for the keys 'architecture' and 'subarchitecture'. *)
Theorem create_node_architecture_frame (request : Request) (db : DB) :
  match create_node_architecture request db with
  | (db', Return altered) =>
      db' = db
      ∧ delete "architecture" (delete "subarchitecture" altered)
        = delete "architecture" (delete "subarchitecture" (data request))
  | (db', Raise e) =>
      db' = db
      ∧ e = ValidationError "Subarchitecture cannot be specified twice."
  end.
Proof.
  assert (∀ v (d : QueryDict.t),
            delete "architecture"
              (delete "subarchitecture" (QueryDict.setitem "architecture" v d))
            = delete "architecture" (delete "subarchitecture" d)) as Hset.
  { intros v d. unfold QueryDict.setitem. apply map_eq. intros key.
    destruct (decide (key = "architecture")) as [->|Harch];
      [by rewrite !lookup_delete_eq|].
    rewrite !(lookup_delete_ne _ "architecture") by done.
    destruct (decide (key = "subarchitecture")) as [->|Hsub];
      [by rewrite !lookup_delete_eq|].
    by rewrite !lookup_delete_ne, lookup_insert_ne. }
  unfold create_node_architecture.
  destruct (truthy (QueryDict.get "architecture" (data request))
            && occurs "/" _);
    [|destruct (truthy (QueryDict.get "architecture" (data request)))];
    destruct (truthy (QueryDict.get "subarchitecture" (data request)));
    simpl.
  all: split; [done|].
  all: try done.
  - unfold QueryDict.delitem. by rewrite delete_delete_eq, Hset.
Qed.

Lemma create_node_architecture_kept (request : Request) (db : DB) arch :
  QueryDict.get "architecture" (data request) = Some arch →
  occurs "/" arch = true →
  truthy (QueryDict.get "subarchitecture" (data request)) = false →
  create_node_architecture request db = (db, Return (data request)).
Proof.
  intros Harch Hslash Hsub. unfold create_node_architecture.
  rewrite Harch, Hsub, (occurs_true_nonempty "/" arch Hslash). simpl.
  by rewrite Hslash.
Qed.

Lemma truthy_Some_inv (v : option string) :
  truthy v = true → ∃ s, v = Some s ∧ s ≠ "".
Proof.
  destruct v as [s|]; [|done]. simpl. intros Hs%negb_true_iff.
  exists s. split; [done|]. by apply String.eqb_neq.
Qed.

(** Rewriting the architecture twice is rewriting it once: on the data that
    the first part of [create_node] hands on, it changes nothing. *)
Theorem create_node_architecture_idempotent (request : Request) (db : DB)
    (altered : QueryDict.t) :
  create_node_architecture request db = (db, Return altered) →
  create_node_architecture (with_data altered request) db
  = (db, Return altered).
Proof.
  unfold create_node_architecture at 1.
  destruct (truthy (QueryDict.get "architecture" (data request)))
    eqn:Htruthy; simpl.
  - apply truthy_Some_inv in Htruthy as (arch & Harch & Hne).
    rewrite Harch. simpl.
    destruct (occurs "/" arch) eqn:Hslash.
    + destruct (truthy (QueryDict.get "subarchitecture" (data request)))
        eqn:Hsub; [done|].
      intros [= <-].
      by apply (create_node_architecture_kept (with_data _ request) _ arch).
    + destruct (truthy (QueryDict.get "subarchitecture" (data request)))
        eqn:Hsub; intros [= <-].
      * apply truthy_Some_inv in Hsub as (subarch & Hsub & Hsubne).
        rewrite Hsub. simpl.
        apply (create_node_architecture_kept (with_data _ request) _
                 (arch +:+ "/" +:+ subarch)); simpl.
        -- rewrite QueryDict_get_delitem_ne by done.
           apply QueryDict_get_setitem.
        -- rewrite occurs_app. simpl. by rewrite orb_true_r.
        -- by rewrite QueryDict_get_delitem.
      * apply (create_node_architecture_kept (with_data _ request) _
                 (arch +:+ "/generic")); simpl.
        -- apply QueryDict_get_setitem.
        -- rewrite occurs_app. simpl. by rewrite orb_true_r.
        -- by rewrite QueryDict_get_setitem_ne.
  - intros [= <-]. unfold create_node_architecture. simpl.
    by rewrite Htruthy.
Qed.

(** Without a 'nodegroup' and without 'autodetect_nodegroup', [create_node]
    is refused with a validation error before the node form is built: the
    table is as it was. *)
Theorem create_node_without_nodegroup (request : Request) (db : DB) :
  QueryDict.contains "nodegroup" (data request) = false →
  QueryDict.get "autodetect_nodegroup" (data request) = None →
  ∃ msg,
    create_node request db = (db, Raise (ValidationError msg))
    ∧ (msg = "Subarchitecture cannot be specified twice."
       ∨ msg = "'autodetect_nodegroup' must be specified if 'nodegroup' "
               +:+ "parameter missing").
Proof.
  intros Hgroup Hauto. unfold create_node.
  destruct (create_node_architecture_cases request db)
    as [[altered Hrun]|Hrun].
  - erewrite bind_return by done.
    unfold create_node_store, create_node_nodegroup.
    assert (QueryDict.contains "nodegroup" altered = false) as ->.
    { unfold QueryDict.contains in *.
      rewrite (create_node_architecture_other_keys request db) by
        (by rewrite ?Hrun). done. }
    rewrite Hauto. simpl. eauto.
  - erewrite bind_raise by done. eauto.
Qed.

End creation_more.

Lemma create_node_architecture_idempotent_witness :
  let request :=
    Example.request_of Example.root
      [("architecture", ["armhf"]); ("subarchitecture", ["highbank"])] in
  let altered : QueryDict.t :=
    QueryDict.delitem "subarchitecture"
      (QueryDict.setitem "architecture" "armhf/highbank" (data request)) in
  create_node_architecture (with_data altered request) Example.pool
  = (Example.pool, Return altered).
Proof.
  intros request altered.
  exact (create_node_architecture_idempotent request Example.pool altered
           eq_refl).
Defined.

Lemma create_node_without_nodegroup_witness :
  ∃ msg,
    @create_node _ Example.collaborators
      (Example.request_of Example.root [("architecture", ["amd64"])])
      Example.pool
    = (Example.pool, Raise (ValidationError msg))
    ∧ (msg = "Subarchitecture cannot be specified twice."
       ∨ msg = "'autodetect_nodegroup' must be specified if 'nodegroup' "
               +:+ "parameter missing").
Proof.
  exact (@create_node_without_nodegroup _ Example.collaborators
           (Example.request_of Example.root [("architecture", ["amd64"])])
           Example.pool eq_refl eq_refl).
Defined.


(** ** The handlers keep the identifiers of the table *)

Lemma keeps_identifiers_ret {A} (a : A) : keeps_identifiers (ret a).
Proof. by intros db. Qed.

Lemma keeps_identifiers_raise {A} (e : exn) : keeps_identifiers (@raise A e).
Proof. by intros db. Qed.

Lemma keeps_identifiers_query {A} (q : DB → A) : keeps_identifiers (query q).
Proof. by intros db. Qed.

Lemma keeps_identifiers_bind {A B} (c : M A) (k : A → M B) :
  keeps_identifiers c → (∀ a, keeps_identifiers (k a)) →
  keeps_identifiers (bind c k).
Proof.
  intros Hc Hk db. unfold bind. specialize (Hc db).
  destruct (c db) as [db' [a|e]]; simpl in *; [|done].
  by rewrite Hk.
Qed.

Lemma keeps_identifiers_save (node node' : Node.t) :
  Node.system_id node' = Node.system_id node →
  keeps_identifiers (save node node').
Proof.
  intros Hid db. unfold save, update. simpl.
  rewrite <- list_fmap_compose. apply list_fmap_ext. intros _ row _. simpl.
  case_bool_decide; congruence.
Qed.

Section identifiers.
Context `{Collaborators}.

Lemma keeps_identifiers_release_loop nodes released failed :
  keeps_identifiers (NodesHandler.release_loop nodes released failed).
Proof.
  revert released failed.
  induction nodes as [|node rest IH]; intros released failed; simpl.
  - apply keeps_identifiers_ret.
  - repeat case_bool_decide; try apply IH.
    apply keeps_identifiers_bind; [|intros; apply IH].
    apply keeps_identifiers_save, release_or_erase_system_id.
Qed.

Lemma keeps_identifiers_accept_enlistment node user :
  keeps_identifiers (accept_enlistment node user).
Proof.
  unfold accept_enlistment. repeat case_bool_decide.
  - apply keeps_identifiers_ret.
  - apply keeps_identifiers_raise.
  - apply keeps_identifiers_bind; [by apply keeps_identifiers_save|].
    intros. apply keeps_identifiers_ret.
Qed.

Lemma keeps_identifiers_for_each {A B} (f : A → M B) (xs : list A) :
  (∀ x, keeps_identifiers (f x)) →
  keeps_identifiers (NodesHandler.for_each f xs).
Proof.
  intros Hf. induction xs as [|x rest IH]; simpl.
  - apply keeps_identifiers_ret.
  - apply keeps_identifiers_bind; [done|]. intros y.
    apply keeps_identifiers_bind; [done|]. intros ys.
    apply keeps_identifiers_ret.
Qed.

Lemma keeps_identifiers_check system_ids :
  keeps_identifiers (NodesHandler._check_system_ids_exist system_ids).
Proof.
  unfold NodesHandler._check_system_ids_exist. case_bool_decide.
  - apply keeps_identifiers_ret.
  - apply keeps_identifiers_bind; [apply keeps_identifiers_query|].
    intros nodes. simpl. case_bool_decide.
    + apply keeps_identifiers_raise.
    + apply keeps_identifiers_ret.
Qed.

(** Whatever they return or raise, releasing one node, releasing or
    accepting several, accepting all and acquiring leave the table with the
    same identifiers in the same order: no row is added, removed or given
    another identifier. *)
Theorem handlers_keep_identifiers (request : Request) (system_id : string) :
  keeps_identifiers (NodeHandler.release request system_id)
  ∧ keeps_identifiers (NodesHandler.release request)
  ∧ keeps_identifiers (NodesHandler.accept request)
  ∧ keeps_identifiers (NodesHandlerRest.accept_all request)
  ∧ keeps_identifiers (NodesHandler.acquire request).
Proof.
  repeat split.
  - unfold NodeHandler.release.
    apply keeps_identifiers_bind.
    + unfold get_node_or_404.
      apply keeps_identifiers_bind; [apply keeps_identifiers_query|].
      intros [|node rest]; [apply keeps_identifiers_raise|].
      destruct (has_perm _ _ _);
        [apply keeps_identifiers_ret|apply keeps_identifiers_raise].
    + intros node. repeat case_bool_decide.
      * apply keeps_identifiers_ret.
      * apply keeps_identifiers_bind;
          [apply keeps_identifiers_save, release_or_erase_system_id|].
        intros. apply keeps_identifiers_ret.
      * apply keeps_identifiers_raise.
  - unfold NodesHandler.release.
    apply keeps_identifiers_bind; [apply keeps_identifiers_check|].
    intros _. apply keeps_identifiers_bind; [apply keeps_identifiers_query|].
    intros nodes. case_bool_decide; [apply keeps_identifiers_raise|].
    apply keeps_identifiers_bind; [apply keeps_identifiers_release_loop|].
    intros [released failed]. destruct (NodesHandler.any failed).
    + apply keeps_identifiers_raise.
    + apply keeps_identifiers_ret.
  - unfold NodesHandler.accept.
    apply keeps_identifiers_bind; [apply keeps_identifiers_check|].
    intros _. apply keeps_identifiers_bind; [apply keeps_identifiers_query|].
    intros nodes. case_bool_decide; [apply keeps_identifiers_raise|].
    apply keeps_identifiers_bind.
    + apply keeps_identifiers_for_each. intros node.
      apply keeps_identifiers_accept_enlistment.
    + intros. apply keeps_identifiers_ret.
  - unfold NodesHandlerRest.accept_all.
    apply keeps_identifiers_bind; [apply keeps_identifiers_query|].
    intros nodes. apply keeps_identifiers_bind.
    + apply keeps_identifiers_for_each. intros node.
      apply keeps_identifiers_accept_enlistment.
    + intros. apply keeps_identifiers_ret.
  - unfold NodesHandler.acquire.
    destruct (negb _); [apply keeps_identifiers_raise|].
    apply keeps_identifiers_bind; [apply keeps_identifiers_query|].
    intros nodes. simpl. destruct (NodesHandler.get_first _) as [node|].
    + unfold acquire_node.
      apply keeps_identifiers_bind; [by apply keeps_identifiers_save|].
      intros. apply keeps_identifiers_ret.
    + apply keeps_identifiers_raise.
Qed.
End identifiers.

(** ** Bulk calls: the empty list, and the validations of accept *)

Section bulk_more.
Context `{Collaborators}.

(** A bulk release or accept that names no node returns the empty list and
    leaves the table as it was, whoever asks. *)
Theorem bulk_calls_accept_empty_list (request : Request) (db : DB) :
  QueryDict.getlist "nodes" (POST request) = [] →
  NodesHandler.release request db = (db, Return [])
  ∧ NodesHandler.accept request db = (db, Return []).
Proof.
  intros Hempty.
  assert (requested_ids request = ∅) as Hids
    by (unfold requested_ids; by rewrite Hempty).
  assert (∀ perm,
            filter (λ row, has_perm (user request) perm row
                           ∧ Node.system_id row ∈ requested_ids request) db
            = []) as Hnone.
  { intros perm. apply filter_none, Forall_forall.
    intros row _ [_ Hin]. rewrite Hids in Hin.
    by apply not_elem_of_empty in Hin. }
  assert (NodesHandler._check_system_ids_exist (requested_ids request) db
          = (db, Return tt)) as Hcheck.
  { apply check_system_ids_exist_ok. intros i Hi. rewrite Hids in Hi.
    by apply not_elem_of_empty in Hi. }
  unfold NodesHandler.release, NodesHandler.accept.
  fold (requested_ids request).
  rewrite !(bind_return _ _ _ _ _ Hcheck).
  unfold get_nodes. rewrite !bind_query. cbv beta. rewrite !Hnone.
  rewrite Hids, size_empty, bool_decide_false by (simpl; lia). done.
Qed.

(** A bulk accept validates as a bulk release does.  When an identifier is
    unknown it raises MAASAPIBadRequest listing exactly the unknown
    identifiers; when all exist and the user lacks the ADMIN permission on a
    requested node it raises PermissionDenied listing exactly the
    identifiers of those nodes.  In both cases no node is accepted. *)
Theorem accept_validates_before_accepting (request : Request) (db : DB) :
  ((∃ i, i ∈ requested_ids request ∧ i ∉ Node.system_id <$> db) →
   ∃ unknown : list string,
     NodesHandler.accept request db
     = (db, Raise (MAASAPIBadRequest
          ("Unknown node(s): " +:+ join ", " unknown +:+ ".")))
     ∧ NoDup unknown
     ∧ ∀ i, i ∈ unknown
            ↔ i ∈ requested_ids request ∧ i ∉ Node.system_id <$> db)
  ∧ (NoDup (Node.system_id <$> db) →
     (∀ i, i ∈ requested_ids request → i ∈ Node.system_id <$> db) →
     (∃ row, row ∈ db ∧ Node.system_id row ∈ requested_ids request
             ∧ has_perm (user request) NODE_PERMISSION.ADMIN row = false) →
     ∃ forbidden : list string,
       NodesHandler.accept request db
       = (db, Raise (PermissionDenied
            ("You don't have the required permission to accept the "
             +:+ "following node(s): " +:+ join ", " forbidden +:+ ".")))
       ∧ NoDup forbidden
       ∧ ∀ i, i ∈ forbidden
              ↔ ∃ row, row ∈ db ∧ Node.system_id row = i
                       ∧ i ∈ requested_ids request
                       ∧ has_perm (user request) NODE_PERMISSION.ADMIN row
                         = false).
Proof.
  split.
  - intros Hunknown. eexists. split; [|split].
    + unfold NodesHandler.accept. fold (requested_ids request).
      erewrite bind_raise by by apply check_system_ids_exist_unknown.
      reflexivity.
    + apply NoDup_elements.
    + intros i. rewrite elem_of_elements. apply elem_of_unknown_ids.
  - intros Hnd Hall Hforbidden. eexists. split; [|split].
    + unfold NodesHandler.accept. fold (requested_ids request).
      erewrite bind_return by by apply check_system_ids_exist_ok.
      unfold get_nodes. rewrite bind_query. cbv beta.
      rewrite bool_decide_true by by apply get_nodes_forbidden.
      reflexivity.
    + apply NoDup_elements.
    + intros i. rewrite elem_of_elements. by apply elem_of_forbidden_ids.
Qed.

(** [accept_all] cannot fail.  It moves every NEW node that the user may
    administer to COMMISSIONING, returns these nodes, and leaves every other
    row as it was; for a user without the ADMIN permission on any NEW node
    that is the empty list and no change. *)
Theorem accept_all_accepts_new_nodes (request : Request) (db : DB) :
  NoDup (Node.system_id <$> db) →
  NODE_STATUS.NEW ∉ ACCEPTED_STATUSES →
  let mine row :=
    has_perm (user request) NODE_PERMISSION.ADMIN row
    ∧ Node.status row = NODE_STATUS.NEW in
  NodesHandlerRest.accept_all request db
  = ((λ row, if bool_decide (mine row)
             then Node.set_status NODE_STATUS.COMMISSIONING row else row)
       <$> db,
     Return (Node.set_status NODE_STATUS.COMMISSIONING <$> filter mine db)).
Proof.
  intros Hnd Hnew mine. unfold NodesHandlerRest.accept_all.
  unfold NodesHandlerRest.get_all_nodes. rewrite bind_query. cbv beta.
  rewrite list_filter_filter.
  assert (filter (λ row, Node.status row = NODE_STATUS.NEW
                         ∧ has_perm (user request) NODE_PERMISSION.ADMIN row)
            db = filter mine db) as ->.
  { apply list_filter_iff. intros row. unfold mine. tauto. }
  assert (∀ node, node ∈ filter mine db → mine node ∧ node ∈ db) as Hnodes
    by (intros node; apply list_elem_of_filter).
  pose proof (accept_loop_spec (user request) db (filter mine db) [] Hnd)
    as Hloop.
  rewrite rewrite_rows_nil in Hloop.
  erewrite bind_return; last first.
  { apply Hloop; [|done|].
    - intros node Hnode. by destruct (Hnodes node Hnode).
    - intros node Hnode. destruct (Hnodes node Hnode) as [[_ Hs] _].
      by left. }
  unfold ret. rewrite omap_accepted. simpl. f_equal.
  - apply Forall_fmap_ext, Forall_forall. intros row Hrow.
    unfold rewrite_rows.
    apply (f_equal (λ b : bool, if b then _ else _)).
    apply bool_decide_ext. rewrite list_elem_of_fmap.
    setoid_rewrite list_elem_of_filter. setoid_rewrite list_elem_of_filter.
    split.
    + intros (node & Heq & Hs & Hmine & Hnode).
      assert (row = node) as <- by (by eapply NoDup_fmap_eq). done.
    + intros Hmine. exists row. by destruct Hmine.
  - apply (f_equal Return), (f_equal (fmap _)).
    rewrite list_filter_filter. apply list_filter_iff.
    intros row. unfold mine. tauto.
Qed.
End bulk_more.

Lemma bulk_calls_accept_empty_list_witness :
  let request := Example.request_of Example.alice [] in
  @NodesHandler.release _ Example.collaborators request Example.pool
  = (Example.pool, Return [])
  ∧ @NodesHandler.accept _ Example.collaborators request Example.pool
    = (Example.pool, Return []).
Proof.
  intros request.
  exact (@bulk_calls_accept_empty_list _ Example.collaborators request
           Example.pool eq_refl).
Defined.

Lemma accept_validates_before_accepting_witness :
  let request :=
    Example.request_of Example.root [("nodes", ["b"; "zz"])] in
  let request' :=
    Example.request_of Example.alice [("nodes", ["b"; "c"])] in
  (∃ unknown : list string,
     @NodesHandler.accept _ Example.collaborators request Example.pool
     = (Example.pool, Raise (MAASAPIBadRequest
          ("Unknown node(s): " +:+ join ", " unknown +:+ ".")))
     ∧ NoDup unknown
     ∧ ∀ i, i ∈ unknown
            ↔ i ∈ requested_ids request
              ∧ i ∉ Node.system_id <$> Example.pool)
  ∧ (∃ forbidden : list string,
       @NodesHandler.accept _ Example.collaborators request' Example.pool
       = (Example.pool, Raise (PermissionDenied
            ("You don't have the required permission to accept the "
             +:+ "following node(s): " +:+ join ", " forbidden +:+ ".")))
       ∧ NoDup forbidden
       ∧ ∀ i, i ∈ forbidden
              ↔ ∃ row, row ∈ Example.pool ∧ Node.system_id row = i
                       ∧ i ∈ requested_ids request'
                       ∧ Example.permits Example.alice NODE_PERMISSION.ADMIN
                           row = false).
Proof.
  intros request request'. split.
  - refine (proj1 (@accept_validates_before_accepting _
                     Example.collaborators request Example.pool) _).
    exists "zz". split; by_computation.
  - refine (proj2 (@accept_validates_before_accepting _
                     Example.collaborators request' Example.pool) _ _ _).
    + by_computation.
    + change (set_Forall (λ i, i ∈ Node.system_id <$> Example.pool)
                (requested_ids request')).
      by_computation.
    + exists (Example.machine "b" "amd64/generic" 2048
                (@NODE_STATUS.NEW spec_statuses) None).
      split; [|split]; [|by_computation|reflexivity].
      right. left.
Defined.

Lemma accept_all_accepts_new_nodes_witness :
  let request := Example.request_of Example.root [] in
  @NodesHandlerRest.accept_all _ Example.collaborators request Example.pool
  = ((λ row, if bool_decide
                  (Example.permits Example.root NODE_PERMISSION.ADMIN row
                   ∧ Node.status row = 0)
             then Node.set_status 1 row else row) <$> Example.pool,
     Return [Example.machine "b" "amd64/generic" 2048 1 None]).
Proof.
  intros request.
  refine (@accept_all_accepts_new_nodes _ Example.collaborators request
            Example.pool _ _); by_computation.
Defined.

(** ** Enlisting as an admin *)

Lemma bind_ret_r {A} (c : M A) (db : DB) : bind c ret db = c db.
Proof. unfold bind, ret. by destruct (c db) as [db' [a|e]]. Qed.

Section enlistment.
Context `{Collaborators}.

(** [NodesHandler.new] is [create_node] for a user who is not a superuser,
    and fails as [create_node] fails for everyone.  For a superuser a node
    that is created NEW is accepted at once: it is COMMISSIONING in the
    table and in the answer. *)
Theorem new_accepts_for_superusers (request : Request) (db : DB) :
  (is_superuser (user request) = false →
   NodesHandlerRest.new request db = create_node request db)
  ∧ (∀ db1 e,
       create_node request db = (db1, Raise e) →
       NodesHandlerRest.new request db = (db1, Raise e))
  ∧ (is_superuser (user request) = true →
     NODE_STATUS.NEW ∉ ACCEPTED_STATUSES →
     ∀ db1 node,
       create_node request db = (db1, Return node) →
       Node.status node = NODE_STATUS.NEW →
       NodesHandlerRest.new request db
       = ((λ row, if bool_decide (Node.system_id row = Node.system_id node)
                  then Node.set_status NODE_STATUS.COMMISSIONING node
                  else row) <$> db1,
          Return (Node.set_status NODE_STATUS.COMMISSIONING node))).
Proof.
  unfold NodesHandlerRest.new. split; [|split].
  - intros ->. apply bind_ret_r.
  - intros db1 e Hrun. by erewrite bind_raise.
  - intros -> Hnew db1 node Hrun Hstatus. erewrite bind_return by done.
    unfold accept_enlistment.
    rewrite bool_decide_false by (by rewrite Hstatus).
    rewrite bool_decide_false by (intros Hne; by apply Hne).
    reflexivity.
Qed.
End enlistment.

Lemma new_accepts_for_superusers_witness :
  let request :=
    Example.request_of Example.root
      [("architecture", ["amd64/generic"]); ("nodegroup", ["master"])] in
  ∃ node,
    Node.status node = @NODE_STATUS.COMMISSIONING spec_statuses
    ∧ @NodesHandlerRest.new _ Example.collaborators request Example.pool
      = (Example.pool ++ [node], Return node).
Proof.
  intros request. eexists. split; [|
  refine (proj2 (proj2 (@new_accepts_for_superusers _ Example.collaborators
                          request Example.pool)) eq_refl _ _ _ eq_refl
            eq_refl)].
  - reflexivity.
  - by_computation.
Defined.

(** ** A granted node is not offered again *)

Section exclusive.
Context `{Collaborators}.

(** When [NodesHandler.acquire] returns a node, that node was a READY node
    of the table without an owner, and on the resulting table it is a
    candidate of no request, of the same requester or of another one. *)
Theorem acquired_node_is_not_offered_again (request : Request)
    (db db' : DB) (node' : Node.t) :
  NodesHandler.acquire request db = (db', Return node') →
  (∃ node, node ∈ db
           ∧ Node.status node = NODE_STATUS.READY
           ∧ Node.owner node = None
           ∧ node' = granted request node)
  ∧ ∀ request2 other,
      other ∈ candidates request2 db' →
      Node.system_id other ≠ Node.system_id node'.
Proof.
  intros Hrun.
  destruct (AcquireNodeForm.is_valid (clean_constraints (data request)))
    eqn:Hvalid; last first.
  { unfold NodesHandler.acquire in Hrun. by rewrite Hvalid in Hrun. }
  destruct (candidates request db) as [|node rest] eqn:Hcands.
  { by rewrite (acquire_none _ _ Hvalid Hcands) in Hrun. }
  rewrite (acquire_some _ _ _ _ Hvalid Hcands) in Hrun.
  injection Hrun as <- <-.
  assert (node ∈ filter (λ row,
            Node.status row = NODE_STATUS.READY
            ∧ has_perm (user request) NODE_PERMISSION.VIEW row
            ∧ Node.owner row = None) db) as Hnode.
  { assert (node ∈ candidates request db) as Hin
      by (rewrite Hcands; by left).
    unfold candidates, AcquireNodeForm.filter_nodes in Hin.
    destruct (clean_constraints (data request)); [|done].
    by apply list_elem_of_filter in Hin as [_ ?]. }
  apply list_elem_of_filter in Hnode as [(Hready & _ & Howner) Hnode].
  split; [by exists node|].
  intros request2 other Hother Hsame.
  assert (Node.owner other = None ∧ other ∈
            (λ row, if bool_decide (Node.system_id row = Node.system_id node)
                    then granted request node else row) <$> db)
    as [Hfree Hin].
  { unfold candidates, AcquireNodeForm.filter_nodes in Hother.
    destruct (clean_constraints (data request2));
      [apply list_elem_of_filter in Hother as [_ Hother]|];
      by apply list_elem_of_filter in Hother as [(_ & _ & ?) ?]. }
  apply list_elem_of_fmap in Hin as (row & -> & Hrow).
  case_bool_decide as Hid; [done|]. by apply Hid.
Qed.
End exclusive.

Lemma acquired_node_is_not_offered_again_witness :
  let request :=
    Example.request_of Example.alice [("arch", ["amd64/generic"])] in
  let n1' :=
    Node.set_owner (Some Example.alice) (Some "token")
      (Node.set_status (@NODE_STATUS.ALLOCATED spec_statuses) Example.n1) in
  (∃ node, node ∈ Example.registry
           ∧ Node.status node = @NODE_STATUS.READY spec_statuses
           ∧ Node.owner node = None
           ∧ n1' = @granted spec_statuses request node)
  ∧ ∀ request2 other,
      other ∈ @candidates _ Example.collaborators request2
                [n1'; Example.n2] →
      Node.system_id other ≠ Node.system_id n1'.
Proof.
  intros request n1'.
  exact (@acquired_node_is_not_offered_again _ Example.collaborators request
           Example.registry [n1'; Example.n2] n1' eq_refl).
Defined.

(** ** The reports *)

Lemma dict_of_lookup {A} (key value : A → string) (xs : list A) (i : string) :
  dict_of key value xs !! i = value <$> last (filter (λ x, key x = i) xs).
Proof.
  unfold dict_of. induction xs as [|x xs IH] using rev_ind; [done|].
  rewrite foldl_snoc, filter_app, filter_cons, filter_nil.
  destruct (decide (key x = i)) as [->|Hne].
  - by rewrite lookup_insert_eq, last_snoc.
  - by rewrite lookup_insert_ne, app_nil_r.
Qed.

Section reports.
Context `{Collaborators} `{Reporting}.

(** The two reports never change the table, whatever they return or
    raise. *)
Theorem reports_are_read_only (request : Request) (GET : QueryDict.t) :
  read_only (NodesHandlerRest.power_parameters request GET)
  ∧ read_only (NodesHandlerRest.deployment_status request GET).
Proof.
  split; intros db.
  - unfold NodesHandlerRest.power_parameters, NodesHandlerRest.admin_method.
    destruct (negb _); [done|].
    by destruct (get_optional_list GET "id").
  - unfold NodesHandlerRest.deployment_status,
      NodesHandler._check_system_ids_exist, filter_system_id_in, get_nodes,
      bind, ret, raise, query.
    repeat case_bool_decide; done.
Qed.

(** [NodesHandler.power_parameters] answers 403 to a user who is not a
    superuser.  For a superuser it never fails: an identifier that no row
    carries is left out of the answer without an error, and every other
    requested identifier (every identifier, when none is requested) is
    mapped to the power parameters of its row, the last one if several rows
    carry it. *)
Theorem power_parameters_skips_unknown_ids (request : Request)
    (GET : QueryDict.t) (db : DB) :
  (is_superuser (user request) = false →
   NodesHandlerRest.power_parameters request GET db
   = (db, Raise (PermissionDenied METHOD_RESERVED_ADMIN)))
  ∧ (is_superuser (user request) = true →
     ∃ response,
       NodesHandlerRest.power_parameters request GET db
       = (db, Return response)
       ∧ ∀ i,
           response !! i
           = if bool_decide (QueryDict.getlist "id" GET = []
                             ∨ i ∈ QueryDict.getlist "id" GET)
             then Node.power_parameters <$>
                    last (filter (λ row, Node.system_id row = i) db)
             else None).
Proof.
  unfold NodesHandlerRest.power_parameters, NodesHandlerRest.admin_method.
  split; intros ->; [done|]. simpl. unfold get_optional_list.
  destruct (QueryDict.getlist "id" GET) as [|id ids] eqn:Hids.
  - eexists. split; [reflexivity|]. intros i.
    rewrite bool_decide_true by by left. apply dict_of_lookup.
  - eexists. split; [reflexivity|]. intros i. rewrite dict_of_lookup.
    rewrite list_filter_filter. case_bool_decide as Hin.
    + destruct Hin as [|Hin]; [done|].
      f_equal. f_equal. apply list_filter_iff. intros row.
      split; [by intros [? _]|]. by intros ->.
    + rewrite filter_none; [done|]. apply Forall_forall.
      intros row _ [<- Hrow]. apply Hin. by right.
Qed.


End reports.

Lemma power_parameters_skips_unknown_ids_witness :
  let GET : QueryDict.t := list_to_map [("id", ["a"; "zz"])] in
  (@NodesHandlerRest.power_parameters
     ExampleReports.reporting (Example.request_of Example.alice []) GET
     ExampleReports.powered
   = (ExampleReports.powered,
      Raise (PermissionDenied "That method is reserved to admin users.")))
  ∧ (∃ response,
       @NodesHandlerRest.power_parameters
         ExampleReports.reporting (Example.request_of Example.root []) GET
         ExampleReports.powered
       = (ExampleReports.powered, Return response)
       ∧ ∀ i,
           response !! i
           = if bool_decide (QueryDict.getlist "id" GET = []
                             ∨ i ∈ QueryDict.getlist "id" GET)
             then Node.power_parameters <$>
                    last (filter (λ row, Node.system_id row = i)
                            ExampleReports.powered)
             else None).
Proof.
  intros GET. split.
  - exact (proj1 (@power_parameters_skips_unknown_ids
                    ExampleReports.reporting
                    (Example.request_of Example.alice []) GET
                    ExampleReports.powered) eq_refl).
  - exact (proj2 (@power_parameters_skips_unknown_ids
                    ExampleReports.reporting
                    (Example.request_of Example.root []) GET
                    ExampleReports.powered) eq_refl).
Defined.


(** ** The commissioning timeout *)

Section commissioning.
Context `{NODE_STATUS.t}.
Import Commissioning.


End commissioning.


(** ** The installer script *)

Section installer.
Import Fabfile.

(** The guard of the loop of [install_maas] holds for every answer. *)
Lemma install_maas_guard (answer : string) :
  negb (String.eqb answer "y") || negb (String.eqb answer "n") = true.
Proof.
  destruct (String.eqb_spec answer "y") as [->|]; [done|done].
Qed.

(** [install_maas] makes one pass of its loop whatever is answered: it runs
    the three installation commands, asks for the device and for the
    confirmation once, and returns.  The wake-on-LAN files are installed,
    with the device name in the command line, exactly when the answer is
    'y'; any other answer, 'n' or not, only prints the two closing
    messages. *)
Theorem install_maas_single_pass (fuel : nat) (eth_name answer : string)
    (rest : list string) :
  install_maas (S fuel)
    {| stdin := eth_name :: answer :: rest; trace := [] |}
  = Finished tt
      {| stdin := rest;
         trace :=
           [Sudo "add-apt-repository ppa:maas-maintainers/stable";
            Sudo "apt-get update";
            Sudo "apt-get install -y maas maas-dhcp maas-dns";
            RawInput "Please specify ethernet device name for wakeonlan: ";
            Print Cyan
              ("Ethernet device for wakeonlan is set to: " +:+ eth_name);
            RawInput "Correct? [y/n]:"]
           ++ (if String.eqb answer "y" then
                 [Put "/home/user/maas/ether_wake.template"
                    "/tmp/ether_wake.template";
                  Sed "/tmp/ether_wake.template"
                    "/usr/sbin/etherwake \$mac_address"
                    ("sudo /usr/sbin/etherwake -i " +:+ eth_name
                     +:+ " \$mac_address");
                  Sudo ("mv /tmp/ether_wake.template "
                        +:+ "/etc/maas/templates/power/ether_wake.template");
                  Run "rm -rf /tmp/ether_wake.template.bak";
                  Put "/home/user/maas/99-maas-sudoers"
                    "/tmp/99-maas-sudoers";
                  Append "/tmp/99-maas-sudoers"
                    "maas ALL= NOPASSWD: /usr/sbin/etherwake"
                    true true true false;
                  Sudo ("mv /tmp/99-maas-sudoers "
                        +:+ "/etc/sudoers.d/99-maas-sudoers");
                  Run "rm -rf /tmp/99-maas-sudoers.bak";
                  Print Green
                    "Wakeonlan configured. Maas is installed properly."]
               else
                 [Print Green "Maas is installed properly.";
                  Print Red
                    ("Alert: Didn't setup wakeonlan. Hit possibility of "
                     +:+ "not being able to do wakeonlan properly."
                     +:+ newline +:+ "Please do manual configuration!")]) |}.
Proof.
  unfold install_maas, and_then, perform. cbn [while].
  change (negb (String.eqb "unknown" "y") || negb (String.eqb "unknown" "n"))
    with true.
  unfold ask_wakeonlan, and_then, raw_input, perform, pure. cbn.
  destruct (String.eqb answer "y"); reflexivity.
Qed.

(** When the input ends before both questions are answered, [install_maas]
    stops at the question with EOFError; the installation commands have
    been run by then. *)
Theorem install_maas_input_ends (fuel : nat) (lines : list string) :
  (length lines < 2)%nat →
  ∃ asked,
    install_maas (S fuel) {| stdin := lines; trace := [] |}
    = EOFError
        {| stdin := [];
           trace :=
             [Sudo "add-apt-repository ppa:maas-maintainers/stable";
              Sudo "apt-get update";
              Sudo "apt-get install -y maas maas-dhcp maas-dns";
              RawInput
                "Please specify ethernet device name for wakeonlan: "]
             ++ asked |}
    ∧ Forall (λ a, (∃ c text, a = Print c text)
                   ∨ (∃ prompt, a = RawInput prompt)) asked.
Proof.
  intros Hlen. destruct lines as [|eth_name [|answer rest]];
    [| |simpl in Hlen; lia].
  - exists []. split; [reflexivity|constructor].
  - exists [Print Cyan
              ("Ethernet device for wakeonlan is set to: " +:+ eth_name);
            RawInput "Correct? [y/n]:"].
    split; [reflexivity|].
    constructor; [left; eauto|]. constructor; [right; eauto|]. constructor.
Qed.
End installer.

Lemma install_maas_input_ends_witness :
  ∃ asked,
    Fabfile.install_maas 1 {| Fabfile.stdin := ["eth0"]; Fabfile.trace := [] |}
    = Fabfile.EOFError
        {| Fabfile.stdin := [];
           Fabfile.trace :=
             [Fabfile.Sudo "add-apt-repository ppa:maas-maintainers/stable";
              Fabfile.Sudo "apt-get update";
              Fabfile.Sudo "apt-get install -y maas maas-dhcp maas-dns";
              Fabfile.RawInput
                "Please specify ethernet device name for wakeonlan: "]
             ++ asked |}
    ∧ Forall (λ a, (∃ c text, a = Fabfile.Print c text)
                   ∨ (∃ prompt, a = Fabfile.RawInput prompt)) asked.
Proof.
  apply (install_maas_input_ends 0 ["eth0"]). simpl. lia.
Defined.
